(** * The TTL cache store of crypto-mcp-server ([src/cache.py])

    A shallow embedding of [CacheManager]: the in-memory entry map, the
    JSON backing file it is loaded from and rewritten to, and the lazy
    expiration performed by [get].  The methods are written in a state and
    exception monad over the pair of the object and the outside world (the
    file system and the wall clock), one definition per Python method.

    What the Python standard library does for the program is modelled in
    the modules [Time] (datetime arithmetic), [Os] (paths, directories,
    opening files) and by [json_load] / [json_dump]; the ISO-8601 parser
    [datetime.fromisoformat] is a parameter of the development, so that
    every theorem holds whichever strings the parser accepts. *)

From Stdlib Require Import ZArith String Ascii List Bool Lia.
From stdpp Require Import base option gmap strings list.

Local Open Scope string_scope.
Local Open Scope Z_scope.

(** ** JSON values

    What [json.load] returns and [json.dump] accepts.  Objects are Python
    dicts with string keys; a finite double is kept as the pair of its
    integer mantissa and binary exponent (the cache never looks at it). *)

#[warnings="-register-all"]
Inductive json : Type :=
| JNull
| JBool (b : bool)
| JInt (n : Z)
| JFloat (mantissa exponent : Z)
| JStr (s : string)
| JArr (items : list json)
| JObj (fields : gmap string json).

(** ** Exceptions and the state-and-exception monad *)

Inductive exn : Type :=
| FileNotFoundError
| FileExistsError
| NotADirectoryError
| IsADirectoryError
| PermissionError
| JSONDecodeError
| AttributeError
| RecursionError.

(** The subclasses of [OSError] among them. *)
Definition is_OSError (e : exn) : bool :=
  match e with
  | FileNotFoundError | FileExistsError | NotADirectoryError
  | IsADirectoryError | PermissionError => true
  | JSONDecodeError | AttributeError | RecursionError => false
  end.

Inductive outcome (A : Type) : Type :=
| Ok (a : A)
| Raise (e : exn).
Arguments Ok {A} a.
Arguments Raise {A} e.

(** A computation reads and updates a state of type [S]; an exception
    leaves the state as it was when it was raised (Python does not roll
    back). *)
Definition M (S A : Type) : Type := S -> outcome A * S.

Definition ret {S A} (a : A) : M S A := fun s => (Ok a, s).

Definition bind {S A B} (m : M S A) (k : A -> M S B) : M S B :=
  fun s => match m s with
           | (Ok a, s') => k a s'
           | (Raise e, s') => (Raise e, s')
           end.

Definition raise {S A} (e : exn) : M S A := fun s => (Raise e, s).

(** [try: body except: handler] with a bare [except]. *)
Definition try_except {S A} (body : M S A) (handler : exn -> M S A) : M S A :=
  fun s => match body s with
           | (Ok a, s') => (Ok a, s')
           | (Raise e, s') => handler e s'
           end.

Definition read_state {S} : M S S := fun s => (Ok s, s).
Definition update_state {S} (f : S -> S) : M S unit := fun s => (Ok tt, f s).

#[global] Instance M_ret {S} : MRet (M S) := fun A => @ret S A.
#[global] Instance M_bind {S} : MBind (M S) := fun A B k m => @bind S A B m k.

Definition succeeded {A} (r : outcome A) : bool :=
  match r with Ok _ => true | Raise _ => false end.

(** ** Time: naive local datetimes, [timedelta], comparison *)

Module Time.

(** A datetime is counted in microseconds since 0001-01-01T00:00:00,
    [datetime.min]; an aware one also carries its UTC offset. *)
Inductive datetime : Type :=
| Naive (us : Z)
| Aware (us : Z) (utcoffset : Z).

Definition MICROS_PER_SECOND : Z := 1000000.
Definition MICROS_PER_MINUTE : Z := 60 * MICROS_PER_SECOND.
Definition MICROS_PER_DAY : Z := 86400 * MICROS_PER_SECOND.

(** [datetime.max] is 9999-12-31T23:59:59.999999, the last microsecond
    of ordinal day 3652059. *)
Definition DATETIME_MAX : Z := 3652059 * MICROS_PER_DAY - 1.

(** [timedelta] holds between -999999999 days and just under
    1000000000 days. *)
Definition TIMEDELTA_MIN : Z := - 999999999 * MICROS_PER_DAY.
Definition TIMEDELTA_MAX : Z := 1000000000 * MICROS_PER_DAY - 1.

Definition representable (us : Z) : bool :=
  (0 <=? us) && (us <=? DATETIME_MAX).

(** [timedelta(minutes=m)]; [None] stands for [OverflowError]. *)
Definition timedelta_minutes (m : Z) : option Z :=
  let us := m * MICROS_PER_MINUTE in
  if (TIMEDELTA_MIN <=? us) && (us <=? TIMEDELTA_MAX) then Some us else None.

(** [t + delta]; [None] stands for [OverflowError]. *)
Definition datetime_add (t : datetime) (delta : Z) : option datetime :=
  match t with
  | Naive us =>
      if representable (us + delta) then Some (Naive (us + delta)) else None
  | Aware us off =>
      if representable (us + delta) then Some (Aware (us + delta) off) else None
  end.

(** [t + timedelta(minutes=m)]. *)
Definition plus_minutes (t : datetime) (m : Z) : option datetime :=
  delta ← timedelta_minutes m;
  datetime_add t delta.

(** [a > b]; comparing a naive with an aware datetime is a [TypeError],
    here [None]. *)
Definition datetime_gt (a b : datetime) : option bool :=
  match a, b with
  | Naive x, Naive y => Some (y <? x)
  | Aware x ox, Aware y oy => Some (y - oy <? x - ox)
  | _, _ => None
  end.

(** *** A reference parser for the strings [datetime.isoformat] writes

    [YYYY-MM-DD], optionally followed by one separator character and
    [HH:MM:SS], optionally followed by [.ffffff].  It is the instance at
    which the general theorems are exercised on concrete stores. *)

Definition digit (c : ascii) : option Z :=
  let n := Z.of_nat (nat_of_ascii c) in
  if (48 <=? n) && (n <=? 57) then Some (n - 48) else None.

Fixpoint digits (k : nat) (acc : Z) (s : list ascii) : option (Z * list ascii) :=
  match k with
  | O => Some (acc, s)
  | S k' =>
      match s with
      | c :: s' =>
          match digit c with
          | Some d => digits k' (acc * 10 + d) s'
          | None => None
          end
      | [] => None
      end
  end.

Definition expect (c : ascii) (s : list ascii) : option (list ascii) :=
  match s with
  | c' :: s' => if Ascii.eqb c c' then Some s' else None
  | [] => None
  end.

Definition is_leap (y : Z) : bool :=
  (y mod 4 =? 0) && (negb (y mod 100 =? 0) || (y mod 400 =? 0)).

Definition days_in_month (y m : Z) : Z :=
  if m =? 2 then (if is_leap y then 29 else 28)
  else if (m =? 4) || (m =? 6) || (m =? 9) || (m =? 11) then 30
  else 31.

Definition days_before_year (y : Z) : Z :=
  let p := y - 1 in p * 365 + p / 4 - p / 100 + p / 400.

Fixpoint days_before_month_nat (y : Z) (m : nat) : Z :=
  match m with
  | O => 0
  | S m' => days_before_month_nat y m' + days_in_month y (Z.of_nat m)
  end.

(** Days of year [y] before the first of month [m]. *)
Definition days_before_month (y m : Z) : Z :=
  days_before_month_nat y (Z.to_nat (m - 1)).

Definition ymd2ord (y m d : Z) : Z :=
  days_before_year y + days_before_month y m + d.

Definition parse_date (s : list ascii) : option (Z * list ascii) :=
  '(y, s) ← digits 4 0 s;
  s ← expect "-"%char s;
  '(m, s) ← digits 2 0 s;
  s ← expect "-"%char s;
  '(d, s) ← digits 2 0 s;
  if (1 <=? y) && (1 <=? m) && (m <=? 12) && (1 <=? d) && (d <=? days_in_month y m)
  then Some ((ymd2ord y m d - 1) * MICROS_PER_DAY, s)
  else None.

Definition parse_fraction (s : list ascii) : option Z :=
  match s with
  | [] => Some 0
  | _ =>
      s ← expect "."%char s;
      '(f, s) ← digits 6 0 s;
      match s with [] => Some f | _ => None end
  end.

Definition parse_time (s : list ascii) : option Z :=
  '(h, s) ← digits 2 0 s;
  s ← expect ":"%char s;
  '(mi, s) ← digits 2 0 s;
  s ← expect ":"%char s;
  '(sec, s) ← digits 2 0 s;
  f ← parse_fraction s;
  if (h <? 24) && (mi <? 60) && (sec <? 60)
  then Some (((h * 60 + mi) * 60 + sec) * MICROS_PER_SECOND + f)
  else None.

Definition isoformat_parse (text : string) : option datetime :=
  '(day_us, s) ← parse_date (list_ascii_of_string text);
  match s with
  | [] => Some (Naive day_us)
  | _ :: s => t ← parse_time s; Some (Naive (day_us + t))
  end.

End Time.

(** ** The outside world: a file system and a clock *)

(** What a regular file holds, as far as [json.load] can tell: a JSON
    document, or bytes it rejects.  [json.dump] writes the former. *)
Inductive content : Type :=
| Document (root : json)
| Malformed.

Inductive node : Type :=
| Dir
| File (readable writable : bool) (data : content).

(** Paths are compared as written (no normalisation of [.], [..] or
    repeated slashes); a relative path is relative to the working
    directory, which always exists. *)
Record World : Type := {
  files : gmap string node;
  clock : Z                  (* what [datetime.now()] reads *)
}.

Definition set_clock (now : Z) (w : World) : World :=
  {| files := files w; clock := now |}.

Module Os.

Definition is_slash (c : ascii) : bool := Ascii.eqb c "/"%char.

Fixpoint take_while (f : ascii -> bool) (l : list ascii) : list ascii :=
  match l with
  | c :: l' => if f c then c :: take_while f l' else []
  | [] => []
  end.

Fixpoint drop_while (f : ascii -> bool) (l : list ascii) : list ascii :=
  match l with
  | c :: l' => if f c then drop_while f l' else l
  | [] => []
  end.

(** [posixpath.split]: cut after the last slash, then strip the
    trailing slashes of the head unless it consists of slashes only.
    The path is handled back to front. *)
Definition path_split (p : string) : string * string :=
  let r := rev (list_ascii_of_string p) in
  let tail_rev := take_while (fun c => negb (is_slash c)) r in
  let head_rev := drop_while (fun c => negb (is_slash c)) r in
  let head_rev :=
    if forallb is_slash head_rev then head_rev
    else drop_while is_slash head_rev in
  (string_of_list_ascii (rev head_rev), string_of_list_ascii (rev tail_rev)).

(** [os.path.dirname]. *)
Definition path_dirname (p : string) : string := fst (path_split p).

Definition is_root (p : string) : bool :=
  negb (String.eqb p "") && forallb is_slash (list_ascii_of_string p).

Definition node_at (p : string) (w : World) : option node :=
  if String.eqb p "" then None
  else if is_root p then Some Dir
  else files w !! p.

Definition add_node (p : string) (n : node) (w : World) : World :=
  {| files := <[p := n]> (files w); clock := clock w |}.

(** [os.path.exists] and [os.path.isdir]. *)
Definition path_exists (p : string) : M World bool :=
  fun w => (Ok (bool_decide (is_Some (node_at p w))), w).

Definition path_isdir (p : string) : M World bool :=
  fun w => (Ok (match node_at p w with Some Dir => true | _ => false end), w).

(** Why a new entry cannot be made at [p], if it cannot: the directory
    that would contain it is missing or is a regular file. *)
Definition parent_error (p : string) (w : World) : option exn :=
  let d := path_dirname p in
  if String.eqb d "" then None
  else match node_at d w with
       | Some Dir => None
       | Some (File _ _ _) => Some NotADirectoryError
       | None => Some FileNotFoundError
       end.

(** [os.mkdir]. *)
Definition mkdir (p : string) : M World unit :=
  fun w =>
    if String.eqb p "" then (Raise FileNotFoundError, w)
    else match parent_error p w with
         | Some e => (Raise e, w)
         | None =>
             match node_at p w with
             | Some _ => (Raise FileExistsError, w)
             | None => (Ok tt, add_node p Dir w)
             end
         end.

(** [os.makedirs(name, exist_ok=True)], after CPython's [os.py]: make
    the missing ancestors first, then the leaf, and forgive an [OSError]
    on the leaf when it is a directory already.  The recursion is on the
    head of the path, which is shorter than the path; [fuel] bounds it. *)
Definition makedirs_leaf (name : string) : M World unit :=
  try_except (mkdir name)
    (fun e =>
       if is_OSError e then
         isdir ← path_isdir name;
         if isdir : bool then ret tt else raise e
       else raise e).

(** The head and tail [makedirs] works with: those of the path, or of
    its head when the path ends in a slash. *)
Definition makedirs_parts (name : string) : string * string :=
  let '(head, tail) := path_split name in
  if String.eqb tail "" then path_split head else (head, tail).

Definition makedirs_step (recur : string -> M World unit) (name : string)
  : M World unit :=
  let parts := makedirs_parts name in
  let head := fst parts in
  let tail := snd parts in
  head_exists ← path_exists head;
  if negb (String.eqb head "") && negb (String.eqb tail "") && negb head_exists
  then
    try_except (recur head)
      (fun e => match e with
                | FileExistsError => ret tt
                | _ => raise e
                end);;
    if String.eqb tail "." then ret tt else makedirs_leaf name
  else makedirs_leaf name.

Fixpoint makedirs_fuel (fuel : nat) (name : string) : M World unit :=
  makedirs_step
    (match fuel with
     | O => fun _ => raise RecursionError
     | S fuel' => makedirs_fuel fuel'
     end) name.

Definition makedirs (name : string) : M World unit :=
  makedirs_fuel (String.length name) name.

(** [open(p, 'r')] and reading the file whole. *)
Definition read_file (p : string) : M World content :=
  fun w =>
    match node_at p w with
    | None => (Raise FileNotFoundError, w)
    | Some Dir => (Raise IsADirectoryError, w)
    | Some (File readable _ data) =>
        if readable then (Ok data, w) else (Raise PermissionError, w)
    end.

(** [open(p, 'w')] and writing [data]: an existing file is truncated
    and keeps its permissions, a missing one is created. *)
Definition write_file (p : string) (data : content) : M World unit :=
  fun w =>
    match node_at p w with
    | Some Dir => (Raise IsADirectoryError, w)
    | Some (File readable writable _) =>
        if writable then (Ok tt, add_node p (File readable writable data) w)
        else (Raise PermissionError, w)
    | None =>
        if String.eqb p "" then (Raise FileNotFoundError, w)
        else match parent_error p w with
             | Some e => (Raise e, w)
             | None => (Ok tt, add_node p (File true true data) w)
             end
    end.

(** [datetime.now()]. *)
Definition datetime_now : M World Z := fun w => (Ok (clock w), w).

End Os.

(** [json.load] on what a file holds, and what [json.dump] leaves in the
    file for a dict. *)
Definition json_load {S} (text : content) : M S json :=
  match text with
  | Document root => ret root
  | Malformed => raise JSONDecodeError
  end.

Definition json_dump (data : gmap string json) : content := Document (JObj data).

(** ** [class CacheManager] *)

Record CacheManager : Type := {
  cache_file : string;
  ttl_minutes : Z;
  cache_data : gmap string json
}.

(** The state a method runs in: [self] and the world. *)
Definition Obj : Type := CacheManager * World.

Definition self : M Obj CacheManager := fun s => (Ok (fst s), s).

(** Run a file-system or clock operation on the world. *)
Definition in_world {A} (m : M World A) : M Obj A :=
  fun s => match m (snd s) with (r, w') => (r, (fst s, w')) end.

(** [self.cache_data = f(self.cache_data)], in place. *)
Definition set_cache_data (f : gmap string json -> gmap string json) : M Obj unit :=
  update_state (fun s : Obj =>
    ({| cache_file := cache_file (fst s);
        ttl_minutes := ttl_minutes (fst s);
        cache_data := f (cache_data (fst s)) |}, snd s)).

Definition _ensure_data_dir : M Obj unit :=
  this ← self;
  in_world (Os.makedirs (Os.path_dirname (cache_file this))).

Definition _load_cache : M Obj json :=
  _ensure_data_dir;;
  this ← self;
  present ← in_world (Os.path_exists (cache_file this));
  if present : bool then
    try_except
      (text ← in_world (Os.read_file (cache_file this)); json_load text)
      (fun _ => ret (JObj ∅))
  else ret (JObj ∅).

Definition _save_cache : M Obj unit :=
  _ensure_data_dir;;
  this ← self;
  in_world (Os.write_file (cache_file this) (json_dump (cache_data this))).

(** [cached_entry.get(key, default)]: only a dict has the method. *)
Definition entry_get {S} (cached_entry : json) (key : string) (default : json)
  : M S json :=
  match cached_entry with
  | JObj fields => ret (match fields !! key with Some v => v | None => default end)
  | _ => raise AttributeError
  end.

(** What [__init__] leaves behind: a manager whose [cache_data] is the
    dict read from the file, or, when the file holds a JSON document
    whose root is not an object, a manager whose [cache_data] is not a
    dict; the store type does not cover the latter. *)
Inductive opened : Type :=
| Opened (this : CacheManager)
| OpenedNonDict (root : json).

(** [CacheManager(cache_file, ttl_minutes)]. *)
Definition __init__ (cache_file : string) (ttl_minutes : Z) : M World opened :=
  fun w =>
    let this := {| cache_file := cache_file; ttl_minutes := ttl_minutes;
                   cache_data := ∅ |} in
    match _load_cache (this, w) with
    | (Ok (JObj data), (_, w')) =>
        (Ok (Opened {| cache_file := cache_file; ttl_minutes := ttl_minutes;
                       cache_data := data |}), w')
    | (Ok root, (_, w')) => (Ok (OpenedNonDict root), w')
    | (Raise e, (_, w')) => (Raise e, w')
    end.

Definition save (symbol : string) (data : json) : M Obj unit :=
  set_cache_data (insert symbol data);;
  _save_cache.

(** [clear(symbol=None)]: [if symbol:] is false for [None] and for the
    empty string alike. *)
Definition clear (symbol : option string) : M Obj unit :=
  match symbol with
  | Some key =>
      if negb (String.eqb key "") then
        this ← self;
        if bool_decide (is_Some (cache_data this !! key))
        then set_cache_data (delete key)
        else ret tt
      else set_cache_data (fun _ => ∅)
  | None => set_cache_data (fun _ => ∅)
  end;;
  _save_cache.

(** What [get] reads off a dict entry: [entry.get('timestamp', '')]. *)
Definition timestamp_of (fields : gmap string json) : json :=
  match fields !! "timestamp" with Some v => v | None => JStr "" end.

Section Expiration.

(** [datetime.fromisoformat]; [None] stands for the [ValueError] it
    raises on a string it does not accept. *)
Variable fromisoformat : string -> option Time.datetime.

(** On anything but a [str] it raises [TypeError]. *)
Definition datetime_fromisoformat (timestamp_str : json) : option Time.datetime :=
  match timestamp_str with
  | JStr s => fromisoformat s
  | _ => None
  end.

(** The time a dict entry says it was written at, as [get] and
    [_is_expired] together read it. *)
Definition written_at (fields : gmap string json) : option Time.datetime :=
  datetime_fromisoformat (timestamp_of fields).

(** The body of the [try] in [_is_expired]; [None] when any step
    raises. *)
Definition expired_or_raises (ttl now : Z) (timestamp_str : json) : option bool :=
  cached_time ← datetime_fromisoformat timestamp_str;
  expiry_time ← Time.plus_minutes cached_time ttl;
  Time.datetime_gt (Time.Naive now) expiry_time.

(** [try: ... except: return True]. *)
Definition is_expired_at (ttl now : Z) (timestamp_str : json) : bool :=
  match expired_or_raises ttl now timestamp_str with
  | Some expired => expired
  | None => true
  end.

Definition _is_expired (timestamp_str : json) : M Obj bool :=
  this ← self;
  now ← in_world Os.datetime_now;
  ret (is_expired_at (ttl_minutes this) now timestamp_str).

Definition get (symbol : string) : M Obj (option json) :=
  this ← self;
  match cache_data this !! symbol with
  | None => ret None
  | Some cached_entry =>
      timestamp ← entry_get cached_entry "timestamp" (JStr "");
      expired ← _is_expired timestamp;
      if expired : bool then
        set_cache_data (delete symbol);;
        _save_cache;;
        ret None
      else ret (Some cached_entry)
  end.

End Expiration.

(** ** Vocabulary of the statements *)

(** [self] with its entry map replaced. *)
Definition with_data (data : gmap string json) (this : CacheManager) : CacheManager :=
  {| cache_file := cache_file this; ttl_minutes := ttl_minutes this;
     cache_data := data |}.

(** The state [s] observed when the clock reads [now]. *)
Definition at_time (now : Z) (s : Obj) : Obj := (fst s, set_clock now (snd s)).

(** The entry map [clear] leaves in memory. *)
Definition cleared (symbol : option string) (data : gmap string json)
  : gmap string json :=
  match symbol with
  | Some key => if String.eqb key "" then ∅ else delete key data
  | None => ∅
  end.

(** The backing file holds the serialization of [data]. *)
Definition file_holds (path : string) (data : gmap string json) (w : World) : Prop :=
  ∃ readable writable,
    Os.node_at path w = Some (File readable writable (json_dump data)).

(** The backing file holds the serialization of the in-memory map. *)
Definition persisted (this : CacheManager) (w : World) : Prop :=
  file_holds (cache_file this) (cache_data this) w.

(** The write path of the store goes through in world [w]: the parent
    directory exists or can be made and the file can be opened for
    writing.  (What is written plays no role.) *)
Definition backing_writable (path : string) (w : World) : bool :=
  succeeded
    (fst (_save_cache
            ({| cache_file := path; ttl_minutes := 0; cache_data := ∅ |}, w))).

(** Loading cannot succeed from this node: there is no file, or it
    cannot be read (a directory, no read permission), or it does not
    parse. *)
Definition load_fails (n : option node) : bool :=
  match n with
  | None => true
  | Some Dir => true
  | Some (File readable _ data) =>
      negb readable || match data with Malformed => true | Document _ => false end
  end.

(** [w'] is [w] with some directories made: the clock and every node of
    [w] are as they were, and whatever is new is a directory. *)
Definition only_new_dirs (w w' : World) : Prop :=
  clock w' = clock w ∧
  ∀ p, Os.node_at p w' = Os.node_at p w ∨
       (Os.node_at p w = None ∧ Os.node_at p w' = Some Dir).

(** The calls a client makes, and the clock moving between them. *)
Inductive operation : Type :=
| Save (symbol : string) (data : json)
| Clear (symbol : option string)
| Get (symbol : string).

Inductive event : Type :=
| Call (op : operation)
| ClockReads (now : Z).

(** Did the call complete a write of the backing file?  Every [save]
    and [clear] that returns did; a [get] did when it returned
    not-found for a key that was present, that is, when it evicted. *)
Definition completed_write (op : operation) (before : CacheManager)
    (r : outcome (option json)) : bool :=
  match op, r with
  | Save _ _, Ok _ => true
  | Clear _, Ok _ => true
  | Get symbol, Ok None => bool_decide (is_Some (cache_data before !! symbol))
  | _, _ => false
  end.

Section Traces.

Variable fromisoformat : string -> option Time.datetime.

Definition run (op : operation) : M Obj (option json) :=
  match op with
  | Save symbol data => save symbol data;; ret None
  | Clear symbol => clear symbol;; ret None
  | Get symbol => get fromisoformat symbol
  end.

(** Run a history; a call that raises is caught by the client, which
    carries on with the object as the exception left it.  The second
    component is the entry map as of the last completed write. *)
Fixpoint run_all (history : list event) (s : Obj)
    (durable : option (gmap string json))
  : Obj * option (gmap string json) :=
  match history with
  | [] => (s, durable)
  | ClockReads now :: rest => run_all rest (at_time now s) durable
  | Call op :: rest =>
      let '(r, s') := run op s in
      run_all rest s'
        (if completed_write op (fst s) r then Some (cache_data (fst s'))
         else durable)
  end.

End Traces.

(** ** Sample stores and worlds *)

(** 2024-01-01T00:00:00 and 2020-01-01T00:00:00 in microseconds. *)
Definition NEW_YEAR_2024 : Z := 63839664000000000.
Definition NEW_YEAR_2020 : Z := 63713433600000000.

Definition empty_disk : World := {| files := ∅; clock := NEW_YEAR_2024 |}.

(** A working directory in which [data] is a regular file. *)
Definition blocked_disk : World :=
  {| files := {[ "data" := File true true Malformed ]}; clock := NEW_YEAR_2024 |}.

(** [data/cache.json] exists but is not JSON. *)
Definition corrupt_disk : World :=
  {| files := <[ "data/cache.json" := File true true Malformed ]> {[ "data" := Dir ]};
     clock := NEW_YEAR_2024 |}.

Definition fresh_store (ttl : Z) : CacheManager :=
  {| cache_file := "data/cache.json"; ttl_minutes := ttl; cache_data := ∅ |}.

(** [{'price': 45000}] *)
Definition unstamped : gmap string json := {[ "price" := JInt 45000 ]}.

(** [{'price': 45000, 'timestamp': '2024-01-01T00:00:00'}] *)
Definition stamped_2024 : gmap string json :=
  <[ "timestamp" := JStr "2024-01-01T00:00:00" ]> unstamped.

(** [{'price': 45000, 'timestamp': '2020-01-01T00:00:00'}] *)
Definition stamped_2020 : gmap string json :=
  <[ "timestamp" := JStr "2020-01-01T00:00:00" ]> unstamped.

(** A store holding BTC (stamped 2024) and ETH (unstamped), ten minutes
    past the stamp, over an empty disk. *)
Definition two_entries (ttl : Z) : CacheManager :=
  with_data (<[ "BTC" := JObj stamped_2024 ]> {[ "ETH" := JObj unstamped ]})
    (fresh_store ttl).

Definition ten_past : World :=
  {| files := ∅; clock := NEW_YEAR_2024 + 10 * Time.MICROS_PER_MINUTE |}.

(** Save BTC and ETH at midnight, read BTC back, then, ten minutes
    later, read it again (it is evicted) and once more (it is absent). *)
Definition sample_history : list event :=
  [ Call (Save "BTC" (JObj stamped_2024));
    Call (Save "ETH" (JObj stamped_2024));
    Call (Get "BTC");
    ClockReads (NEW_YEAR_2024 + 10 * Time.MICROS_PER_MINUTE);
    Call (Get "BTC");
    Call (Get "BTC") ].

(** ** The rest of [CacheManager] *)

(** The dict [get_cache_info] returns.  The symbols come in the order
    the map enumerates them, which is not the order of insertion a
    Python dict keeps. *)
Record cache_info : Type := {
  info_file : string;
  info_ttl_minutes : Z;
  cached_symbols : list string;
  total_entries : nat
}.

Definition get_cache_info : M Obj cache_info :=
  this ← self;
  ret {| info_file := cache_file this;
         info_ttl_minutes := ttl_minutes this;
         cached_symbols := (map_to_list (cache_data this)).*1;
         total_entries := size (cache_data this) |}.

(** A disk is consistent when everything on it sits in the working
    directory, under the root or in a directory that is on the disk
    too: no entry under a missing directory or under a regular file. *)
Definition consistent (w : World) : Prop :=
  map_Forall (λ p _, Os.parent_error p w = None) (files w).

(** The backing file is absent or can be read. *)
Definition absent_or_readable (n : option node) : bool :=
  match n with
  | None => true
  | Some Dir => false
  | Some (File readable _ _) => readable
  end.

(** A reference parser that also reads a trailing UTC offset [+HH:MM]
    or [-HH:MM] after the time, as [datetime.isoformat] writes it for an
    aware datetime; the offset is kept in microseconds. *)
Definition isoformat_parse_offset (text : string) : option Time.datetime :=
  let chars := list_ascii_of_string text in
  let n := length chars in
  match drop (n - 6) chars with
  | [sign; h1; h2; colon; m1; m2] =>
      if (Ascii.eqb sign "+" || Ascii.eqb sign "-") && Ascii.eqb colon ":" then
        match Time.digits 2 0 [h1; h2], Time.digits 2 0 [m1; m2],
              Time.isoformat_parse (string_of_list_ascii (take (n - 6) chars)) with
        | Some (h, _), Some (m, _), Some (Time.Naive us) =>
            let off := (h * 60 + m) * Time.MICROS_PER_MINUTE in
            Some (Time.Aware us (if Ascii.eqb sign "-" then - off else off))
        | _, _, _ => Time.isoformat_parse text
        end
      else Time.isoformat_parse text
  | _ => Time.isoformat_parse text
  end.

(** [{'price': 45000, 'timestamp': '2024-01-01T00:00:00+00:00'}] *)
Definition stamped_utc : gmap string json :=
  <[ "timestamp" := JStr "2024-01-01T00:00:00+00:00" ]> unstamped.

(** The working directory holds a regular file named [data]; the clock
    reads ten past midnight. *)
Definition blocked_ten_past : World :=
  {| files := {[ "data" := File true true Malformed ]};
     clock := NEW_YEAR_2024 + 10 * Time.MICROS_PER_MINUTE |}.

(** A five-minute store holding that object under BTC. *)
Definition utc_store : CacheManager :=
  with_data {[ "BTC" := JObj stamped_utc ]} (fresh_store 5).

(** ** Printing a datetime: [datetime.isoformat] *)

(** [n] written with [width] decimal digits, zero-padded. *)
Fixpoint decimal (width : nat) (n : Z) : list ascii :=
  match width with
  | O => []
  | S width' =>
      decimal width' (n / 10) ++ [ascii_of_nat (48 + Z.to_nat (n mod 10))]
  end.

(** The month (counting from [m]) and the day of the month of the day
    numbered [n], from 0, among the days of year [y] from month [m] on. *)
Fixpoint month_and_day (months : nat) (y m n : Z) : Z * Z :=
  match months with
  | O => (m, n + 1)
  | S months' =>
      if n <? Time.days_in_month y m then (m, n + 1)
      else month_and_day months' y (m + 1) (n - Time.days_in_month y m)
  end.

(** The year of ordinal day [ord] (1 is 0001-01-01), after CPython's
    [_ord2ymd]: whole 400-, 100-, 4- and 1-year cycles. *)
Definition year_and_rest (ord : Z) : Z * Z :=
  let n := ord - 1 in
  let n400 := n / 146097 in
  let n := n mod 146097 in
  let n100 := n / 36524 in
  let n := n mod 36524 in
  let n4 := n / 1461 in
  let n := n mod 1461 in
  let n1 := n / 365 in
  let n := n mod 365 in
  let year := n400 * 400 + 1 + n100 * 100 + n4 * 4 + n1 in
  if (n1 =? 4) || (n100 =? 4) then (year - 1, 365) else (year, n).

(** [datetime.isoformat()] of a naive datetime:
    [YYYY-MM-DDTHH:MM:SS], followed by [.ffffff] unless the microsecond
    is zero. *)
Definition isoformat_print (us : Z) : string :=
  let '(year, n) := year_and_rest (us / Time.MICROS_PER_DAY + 1) in
  let '(month, day) := month_and_day 11 year 1 n in
  let rest := us mod Time.MICROS_PER_DAY in
  let seconds := rest / Time.MICROS_PER_SECOND in
  let micro := rest mod Time.MICROS_PER_SECOND in
  string_of_list_ascii
    (decimal 4 year ++ ["-"%char] ++ decimal 2 month ++ ["-"%char]
     ++ decimal 2 day ++ ["T"%char]
     ++ decimal 2 (seconds / 3600) ++ [":"%char]
     ++ decimal 2 (seconds / 60 mod 60) ++ [":"%char]
     ++ decimal 2 (seconds mod 60)
     ++ (if micro =? 0 then [] else ["."%char] ++ decimal 6 micro)).

(** ** Python values as conditions *)

(** The truth value of a JSON value, as [if value:] takes it. *)
Definition truthy (v : json) : bool :=
  match v with
  | JNull => false
  | JBool b => b
  | JInt n => negb (n =? 0)
  | JFloat mantissa _ => negb (mantissa =? 0)
  | JStr s => negb (String.eqb s "")
  | JArr items => match items with [] => false | _ => true end
  | JObj fields => negb (Nat.eqb (size fields) 0)
  end.

(** ** [class ErrorHandler]: the validators ([src/errors.py])

    Strings are ASCII text here: [len] counts characters and [isupper]
    knows the letters [a]-[z] and [A]-[Z] as the cased characters. *)

Definition is_ascii (s : string) : bool :=
  forallb (λ c, Nat.ltb (nat_of_ascii c) 128) (list_ascii_of_string s).

Definition is_lower_letter (c : ascii) : bool :=
  Nat.leb 97 (nat_of_ascii c) && Nat.leb (nat_of_ascii c) 122.

Definition is_upper_letter (c : ascii) : bool :=
  Nat.leb 65 (nat_of_ascii c) && Nat.leb (nat_of_ascii c) 90.

(** [str.isupper]: every cased character is uppercase and there is at
    least one cased character. *)
Definition isupper (s : string) : bool :=
  negb (existsb is_lower_letter (list_ascii_of_string s))
  && existsb is_upper_letter (list_ascii_of_string s).

(** What a validator does: it returns, or raises [ValueError] with a
    message. *)
Inductive validated (A : Type) : Type :=
| Returns (a : A)
| RaisesValueError (message : string).
Arguments Returns {A} a.
Arguments RaisesValueError {A} message.

Definition validate_symbol (symbol : json) : validated bool :=
  match symbol with
  | JStr s =>
      if Nat.ltb (String.length s) 2 || Nat.ltb 10 (String.length s)
      then RaisesValueError "Symbol must be 2-10 characters"
      else if negb (isupper s)
      then RaisesValueError "Symbol must be uppercase"
      else Returns true
  | _ => RaisesValueError "Symbol must be a string"
  end.

(** [isinstance(days, int)] holds of the booleans too, which compare as
    0 and 1. *)
Definition validate_days (days : json) : validated bool :=
  let check (n : Z) : validated bool :=
    if (n <? 1) || (365 <? n)
    then RaisesValueError "Days must be between 1 and 365"
    else Returns true in
  match days with
  | JInt n => check n
  | JBool b => check (if b then 1 else 0)
  | _ => RaisesValueError "Days must be an integer"
  end.

(** ** [class CryptoAPI] ([src/api.py]) *)

(** What the exchange client answers to [fetch_ticker(pair)]: a ticker
    dict, or an exception, of which only [str(e)] is used. *)
Inductive reply : Type :=
| Ticker (ticker : gmap string json)
| ExchangeError (message : string).

(** What a method of the API does: it returns, or raises
    [Exception(message)]. *)
Inductive api_result (A : Type) : Type :=
| Fetched (a : A)
| ApiException (message : string).
Arguments Fetched {A} a.
Arguments ApiException {A} message.

(** The dict literal of [__init__], in the order written. *)
Definition SYMBOL_PAIRS : list (string * string) :=
  [ ("BTC", "BTC/USDT"); ("ETH", "ETH/USDT"); ("XRP", "XRP/USDT");
    ("ADA", "ADA/USDT"); ("SOL", "SOL/USDT"); ("DOGE", "DOGE/USDT");
    ("MATIC", "MATIC/USDT"); ("LINK", "LINK/USDT"); ("LTC", "LTC/USDT");
    ("BCH", "BCH/USDT"); ("DOT", "DOT/USDT"); ("AVAX", "AVAX/USDT");
    ("ARB", "ARB/USDT"); ("OP", "OP/USDT"); ("SHIB", "SHIB/USDT");
    ("PEPE", "PEPE/USDT"); ("NEAR", "NEAR/USDT"); ("UNI", "UNI/USDT") ].

Definition symbols_map : gmap string string := list_to_map SYMBOL_PAIRS.

(** [list(self.symbols_map.keys())]: the keys in the order written. *)
Definition get_supported_symbols : list string := SYMBOL_PAIRS.*1.

(** [ticker[key]]: the value, or [str] of the [KeyError], which is the
    [repr] of the key. *)
Definition item (ticker : gmap string json) (key : string) : string + json :=
  match ticker !! key with
  | Some v => inr v
  | None => inl ("'" +:+ key +:+ "'")
  end.

Section Api.

(** The exchange client ([ccxt.binance()]) and [datetime.isoformat]. *)
Variable exchange_fetch_ticker : string -> World -> reply.
Variable isoformat : Z -> string.

(** The dict [fetch_ticker] builds from a ticker, its items evaluated in
    the order written; [inl] carries [str] of the exception raised. *)
Definition price_data_of (symbol : string) (ticker : gmap string json)
    (now : Z) : string + json :=
  match item ticker "last" with inl e => inl e | inr price =>
  match item ticker "high" with inl e => inl e | inr high_24h =>
  match item ticker "low" with inl e => inl e | inr low_24h =>
  match item ticker "quoteVolume" with inl e => inl e | inr volume =>
  match item ticker "bid" with inl e => inl e | inr bid =>
  match item ticker "ask" with inl e => inl e | inr ask =>
    inr (JObj (list_to_map
           [ ("symbol", JStr symbol);
             ("price", price);
             ("high_24h", high_24h);
             ("low_24h", low_24h);
             ("volume", volume);
             ("bid", bid);
             ("ask", ask);
             ("timestamp", JStr (isoformat now));
             ("change_percent",
              match ticker !! "percentage" with
              | Some v => v
              | None => JStr "N/A"
              end) ]))
  end end end end end end.

(** The body of the [try] in [fetch_ticker]. *)
Definition fetch_ticker_body (symbol : string) (w : World) : string + json :=
  match symbols_map !! symbol with
  | None => inl ("Symbol " +:+ symbol +:+ " not supported")
  | Some trading_pair =>
      match exchange_fetch_ticker trading_pair w with
      | ExchangeError message => inl message
      | Ticker ticker => price_data_of symbol ticker (clock w)
      end
  end.

Definition fetch_ticker (symbol : string) (w : World) : api_result json :=
  match fetch_ticker_body symbol w with
  | inr price_data => Fetched price_data
  | inl message => ApiException ("Error fetching " +:+ symbol +:+ ": " +:+ message)
  end.

(** [fetch_multiple_tickers]: the loop, [results] being the dict built so
    far. *)
Fixpoint fetch_multiple_tickers_from (results : gmap string json)
    (symbols : list string) (w : World) : gmap string json :=
  match symbols with
  | [] => results
  | symbol :: rest =>
      let entry :=
        match fetch_ticker symbol w with
        | Fetched price_data => price_data
        | ApiException message => JObj {[ "error" := JStr message ]}
        end in
      fetch_multiple_tickers_from (<[symbol := entry]> results) rest w
  end.

Definition fetch_multiple_tickers (symbols : list string) (w : World)
  : gmap string json :=
  fetch_multiple_tickers_from ∅ symbols w.

End Api.

(** ** [class MCPServer] ([src/main.py]) *)

(** What the [try] of a server method can catch: an exception out of the
    cache, or the [Exception] of the API. *)
Inductive raised : Type :=
| CacheRaised (e : exn)
| ApiRaised (message : string).

(** [type(e).__name__]. *)
Definition exn_name (e : exn) : string :=
  match e with
  | FileNotFoundError => "FileNotFoundError"
  | FileExistsError => "FileExistsError"
  | NotADirectoryError => "NotADirectoryError"
  | IsADirectoryError => "IsADirectoryError"
  | PermissionError => "PermissionError"
  | JSONDecodeError => "JSONDecodeError"
  | AttributeError => "AttributeError"
  | RecursionError => "RecursionError"
  end.

Section Server.

Variable fromisoformat : string -> option Time.datetime.
Variable exchange_fetch_ticker : string -> World -> reply.
Variable isoformat : Z -> string.

(** [str(e)] for the exceptions of the cache, whose text the operating
    system words; and what [ErrorHandler._log_error] leaves of the world:
    it appends a line to its log file and swallows its own failures, so
    it returns whatever the disk does. *)
Variable str_of_exn : exn -> string.
Variable _log_error : json -> World -> World.

(** [ErrorHandler.handle(exception, context)]; the printing is left
    out. *)
Definition handle (exception : raised) (context : string) (w : World)
  : json * World :=
  let error_response :=
    JObj (list_to_map
      [ ("error", JBool true);
        ("message", JStr match exception with
                         | CacheRaised e => str_of_exn e
                         | ApiRaised message => message
                         end);
        ("context", JStr context);
        ("timestamp", JStr (isoformat (clock w)));
        ("type", JStr match exception with
                      | CacheRaised e => exn_name e
                      | ApiRaised _ => "Exception"
                      end) ]) in
  (error_response, _log_error error_response w).

(** [except Exception as e: return self.error_handler.handle(e, symbol)],
    the object being as the exception left it. *)
Definition handled (exception : raised) (symbol : string) (s : Obj) : json * Obj :=
  let '(error_response, w') := handle exception symbol (snd s) in
  (error_response, (fst s, w')).

(** The rest of the [try] of [get_current_price], past the cache: ask
    the API, cache the answer, return it. *)
Definition fetch_and_cache (symbol : string) (s : Obj) : json * Obj :=
  match fetch_ticker exchange_fetch_ticker isoformat symbol (snd s) with
  | ApiException message => handled (ApiRaised message) symbol s
  | Fetched price_data =>
      match save symbol price_data s with
      | (Ok _, s') => (price_data, s')
      | (Raise e, s') => handled (CacheRaised e) symbol s'
      end
  end.

Definition get_current_price (symbol : string) (s : Obj) : json * Obj :=
  match get fromisoformat symbol s with
  | (Raise e, s') => handled (CacheRaised e) symbol s'
  | (Ok (Some cached), s') =>
      if truthy cached then (cached, s') else fetch_and_cache symbol s'
  | (Ok None, s') => fetch_and_cache symbol s'
  end.

(** [get_multiple_prices]: the loop, [results] being the dict built so
    far. *)
Fixpoint get_multiple_prices_from (results : gmap string json)
    (symbols : list string) (s : Obj) : gmap string json * Obj :=
  match symbols with
  | [] => (results, s)
  | symbol :: rest =>
      let '(price, s') := get_current_price symbol s in
      get_multiple_prices_from (<[symbol := price]> results) rest s'
  end.

Definition get_multiple_prices (symbols : list string) (s : Obj)
  : gmap string json * Obj :=
  get_multiple_prices_from ∅ symbols s.

End Server.

(** ** Sample collaborators of the server *)

Definition sample_ticker : gmap string json :=
  list_to_map
    [ ("last", JInt 45000); ("high", JInt 46000); ("low", JInt 44000);
      ("quoteVolume", JInt 1000000); ("bid", JInt 44990); ("ask", JInt 45010);
      ("percentage", JInt 2) ].

(** An exchange that knows the BTC/USDT market only. *)
Definition sample_exchange (pair : string) (w : World) : reply :=
  if String.eqb pair "BTC/USDT" then Ticker sample_ticker
  else ExchangeError "binance does not have market symbol".

(** An exchange that cannot be reached. *)
Definition unreachable_exchange (pair : string) (w : World) : reply :=
  ExchangeError "binance GET https://api.binance.com/api/v3/exchangeInfo".

(** A log file that cannot be written: [_log_error] gives up silently. *)
Definition log_unwritable (error_info : json) (w : World) : World := w.

(** What [get_current_price] of BTC answers from [sample_exchange] at
    midnight. *)
Definition sample_price_data : json :=
  JObj (list_to_map
    [ ("symbol", JStr "BTC"); ("price", JInt 45000); ("high_24h", JInt 46000);
      ("low_24h", JInt 44000); ("volume", JInt 1000000); ("bid", JInt 44990);
      ("ask", JInt 45010); ("timestamp", JStr "2024-01-01T00:00:00");
      ("change_percent", JInt 2) ]).

(** * Properties *)

(** ** The file system *)

Arguments Os.path_split : simpl never.
Arguments Os.path_dirname : simpl never.
Arguments Os.node_at : simpl never.
Arguments Os.add_node : simpl never.

Ltac run_monad :=
  unfold mbind, mret, M_bind, M_ret, bind, ret, raise, try_except,
    read_state, update_state in *; simpl in *.

Lemma only_new_dirs_refl w : only_new_dirs w w.
Proof. split; [reflexivity | intros p; now left]. Qed.

Lemma only_new_dirs_trans w1 w2 w3 :
  only_new_dirs w1 w2 → only_new_dirs w2 w3 → only_new_dirs w1 w3.
Proof.
  intros [Hc12 H12] [Hc23 H23]. split; [congruence |].
  intros p. destruct (H23 p) as [E23 | [N2 D3]], (H12 p) as [E12 | [N1 D2]].
  - left. congruence.
  - right. split; congruence.
  - right. split; congruence.
  - congruence.
Qed.

Lemma only_new_dirs_keeps w w' p n :
  only_new_dirs w w' → Os.node_at p w = Some n → Os.node_at p w' = Some n.
Proof.
  intros [_ H] Hn. destruct (H p) as [E | [N _]]; congruence.
Qed.

Lemma node_at_add_node p n w q :
  Os.node_at q (Os.add_node p n w) =
  if String.eqb q "" then None
  else if Os.is_root q then Some Dir
  else if decide (p = q) then Some n else files w !! q.
Proof.
  unfold Os.node_at, Os.add_node; simpl.
  destruct (String.eqb q ""); [reflexivity |].
  destruct (Os.is_root q); [reflexivity |].
  destruct (decide (p = q)) as [-> | Hne].
  - apply lookup_insert_eq.
  - now apply lookup_insert_ne.
Qed.

(** Writing at a path where nothing was visible makes that path hold the
    new node. *)
Lemma node_at_add_node_fresh p n w :
  String.eqb p "" = false → Os.node_at p w = None →
  Os.node_at p (Os.add_node p n w) = Some n.
Proof.
  intros Hp Hnone. rewrite node_at_add_node, Hp.
  unfold Os.node_at in Hnone. rewrite Hp in Hnone.
  destruct (Os.is_root p); [discriminate |].
  destruct (decide (p = p)); congruence.
Qed.

Lemma node_at_add_node_over p n r wr d w :
  Os.node_at p w = Some (File r wr d) →
  Os.node_at p (Os.add_node p n w) = Some n.
Proof.
  intros Hf. rewrite node_at_add_node. unfold Os.node_at in Hf.
  destruct (String.eqb p ""); [discriminate |].
  destruct (Os.is_root p); [discriminate |].
  destruct (decide (p = p)); congruence.
Qed.

Lemma mkdir_only_new_dirs p w r w' :
  Os.mkdir p w = (r, w') → only_new_dirs w w'.
Proof.
  unfold Os.mkdir. intros H.
  destruct (String.eqb p "") eqn:Hp.
  { inversion H; subst. apply only_new_dirs_refl. }
  destruct (Os.parent_error p w).
  { inversion H; subst. apply only_new_dirs_refl. }
  destruct (Os.node_at p w) eqn:Hn.
  { inversion H; subst. apply only_new_dirs_refl. }
  inversion H; subst. split; [reflexivity |].
  intros q. destruct (decide (p = q)) as [<- | Hne].
  - right. split; [assumption |]. now apply node_at_add_node_fresh.
  - left. rewrite node_at_add_node. unfold Os.node_at.
    destruct (String.eqb q ""); [reflexivity |].
    destruct (Os.is_root q); [reflexivity |].
    destruct (decide (p = q)); [contradiction | reflexivity].
Qed.

Lemma makedirs_leaf_only_new_dirs name w r w' :
  Os.makedirs_leaf name w = (r, w') → only_new_dirs w w'.
Proof.
  unfold Os.makedirs_leaf, Os.path_isdir. run_monad. intros H.
  destruct (Os.mkdir name w) as [r0 w0] eqn:Hm.
  apply mkdir_only_new_dirs in Hm.
  destruct r0 as [[] | e].
  - inversion H; subst. assumption.
  - destruct (is_OSError e); [| inversion H; subst; assumption].
    destruct (Os.node_at name w0) as [[|]|]; inversion H; subst; assumption.
Qed.

Lemma makedirs_step_only_new_dirs recur name :
  (∀ head w r w', recur head w = (r, w') → only_new_dirs w w') →
  ∀ w r w', Os.makedirs_step recur name w = (r, w') → only_new_dirs w w'.
Proof.
  intros Hrecur w r w'. unfold Os.makedirs_step, Os.path_exists.
  destruct (Os.makedirs_parts name) as [head tail]. run_monad.
  destruct (negb (String.eqb head "") && negb (String.eqb tail "")
            && negb (bool_decide (is_Some (Os.node_at head w))));
    [| apply makedirs_leaf_only_new_dirs].
  destruct (recur head w) as [r1 w1] eqn:Hrec.
  apply Hrecur in Hrec. intros H.
  assert (Hleaf : ∀ r2 w2,
    (if String.eqb tail "." then λ s : World, (Ok tt, s)
     else Os.makedirs_leaf name) w1 = (r2, w2) → only_new_dirs w w2).
  { intros r2 w2 H2. destruct (String.eqb tail ".").
    - inversion H2; subst. assumption.
    - eapply only_new_dirs_trans; [eassumption |].
      eapply makedirs_leaf_only_new_dirs; eassumption. }
  destruct r1 as [[] | e]; [eapply Hleaf; eassumption |].
  destruct e; try (inversion H; subst; assumption).
  eapply Hleaf; eassumption.
Qed.

Lemma makedirs_fuel_only_new_dirs fuel : ∀ name w r w',
  Os.makedirs_fuel fuel name w = (r, w') → only_new_dirs w w'.
Proof.
  induction fuel as [| fuel IH]; intros name; simpl;
    apply makedirs_step_only_new_dirs.
  - intros head w r w' H. inversion H; subst. apply only_new_dirs_refl.
  - apply IH.
Qed.

Lemma makedirs_only_new_dirs name w r w' :
  Os.makedirs name w = (r, w') → only_new_dirs w w'.
Proof. apply makedirs_fuel_only_new_dirs. Qed.

(** *** The fuel of [makedirs] never runs out *)

Lemma take_drop_while_length f l :
  (length (Os.take_while f l) + length (Os.drop_while f l) = length l)%nat.
Proof.
  induction l as [| c l IH]; simpl; [reflexivity |].
  destruct (f c); simpl; lia.
Qed.

Lemma drop_while_length f l : (length (Os.drop_while f l) <= length l)%nat.
Proof. pose proof (take_drop_while_length f l). lia. Qed.

Lemma string_of_list_ascii_length l :
  String.length (string_of_list_ascii l) = length l.
Proof. induction l as [| c l IH]; simpl; congruence. Qed.

Lemma list_ascii_of_string_length s :
  length (list_ascii_of_string s) = String.length s.
Proof. induction s as [| c s IH]; simpl; congruence. Qed.

(** Head and tail together are no longer than the path. *)
Lemma path_split_length p :
  (String.length (fst (Os.path_split p)) + String.length (snd (Os.path_split p))
   <= String.length p)%nat.
Proof.
  unfold Os.path_split. simpl.
  rewrite !string_of_list_ascii_length, !length_rev.
  set (r := rev (list_ascii_of_string p)).
  assert (Hr : length r = String.length p).
  { unfold r. now rewrite length_rev, list_ascii_of_string_length. }
  pose proof (take_drop_while_length (λ c, negb (Os.is_slash c)) r) as Hsum.
  pose proof (drop_while_length Os.is_slash
                (Os.drop_while (λ c, negb (Os.is_slash c)) r)) as Hle.
  destruct (forallb Os.is_slash (Os.drop_while (λ c, negb (Os.is_slash c)) r)); lia.
Qed.

Lemma makedirs_parts_length name :
  (String.length (fst (Os.makedirs_parts name))
   + String.length (snd (Os.makedirs_parts name)) <= String.length name)%nat.
Proof.
  unfold Os.makedirs_parts.
  pose proof (path_split_length name) as H.
  destruct (Os.path_split name) as [head tail]; simpl in H.
  destruct (String.eqb tail "").
  - pose proof (path_split_length head). lia.
  - simpl. exact H.
Qed.

Lemma mkdir_raises_OSError p w e w' :
  Os.mkdir p w = (Raise e, w') → is_OSError e = true.
Proof.
  unfold Os.mkdir, Os.parent_error. intros H.
  destruct (String.eqb p ""); [inversion H; reflexivity |].
  destruct (String.eqb (Os.path_dirname p) "").
  - destruct (Os.node_at p w); inversion H; reflexivity.
  - destruct (Os.node_at (Os.path_dirname p) w) as [[|] |];
      try (inversion H; reflexivity).
    destruct (Os.node_at p w); inversion H; reflexivity.
Qed.

Lemma makedirs_leaf_raises_OSError name w e w' :
  Os.makedirs_leaf name w = (Raise e, w') → is_OSError e = true.
Proof.
  unfold Os.makedirs_leaf, Os.path_isdir. run_monad.
  destruct (Os.mkdir name w) as [[[] | e0] w0] eqn:Hm; [discriminate |].
  apply mkdir_raises_OSError in Hm. rewrite Hm.
  destruct (Os.node_at name w0) as [[|] |]; intros H; inversion H; subst;
    assumption.
Qed.

Lemma makedirs_fuel_raises_OSError fuel : ∀ name,
  (String.length name <= fuel)%nat →
  ∀ w e w', Os.makedirs_fuel fuel name w = (Raise e, w') → is_OSError e = true.
Proof.
  induction fuel as [| fuel IH]; intros name Hlen w e w'; simpl;
    unfold Os.makedirs_step, Os.path_exists;
    pose proof (makedirs_parts_length name) as Hparts;
    destruct (Os.makedirs_parts name) as [head tail]; simpl in Hparts; run_monad;
    destruct (String.eqb_spec head "") as [-> | Hhead]; simpl;
    try apply makedirs_leaf_raises_OSError;
    destruct (String.eqb_spec tail "") as [-> | Htail]; simpl;
    try apply makedirs_leaf_raises_OSError;
    destruct (bool_decide (is_Some (Os.node_at head w))); simpl;
    try apply makedirs_leaf_raises_OSError.
  - destruct tail; [contradiction | simpl in Hparts; lia].
  - assert (Hshort : (String.length head <= fuel)%nat).
    { destruct tail; [contradiction | simpl in Hparts; lia]. }
    destruct (Os.makedirs_fuel fuel head w) as [[[] | e1] w1] eqn:Hrec.
    + destruct (String.eqb tail "."); [discriminate |].
      apply makedirs_leaf_raises_OSError.
    + apply (IH head Hshort) in Hrec.
      destruct e1; try discriminate;
        try (intros H; inversion H; subst; reflexivity).
      destruct (String.eqb tail "."); [discriminate |].
      apply makedirs_leaf_raises_OSError.
Qed.

(** [makedirs] returns or raises an [OSError]: the bound on the
    recursion is never what stops it. *)
Lemma makedirs_raises_OSError name w e w' :
  Os.makedirs name w = (Raise e, w') → is_OSError e = true.
Proof. apply makedirs_fuel_raises_OSError. reflexivity. Qed.

Lemma write_file_ok p data w w' :
  Os.write_file p data w = (Ok tt, w') →
  clock w' = clock w ∧
  ∃ readable writable, Os.node_at p w' = Some (File readable writable data).
Proof.
  unfold Os.write_file. intros H.
  destruct (Os.node_at p w) as [[| rd wr d] |] eqn:Hn.
  - discriminate.
  - destruct wr; [| discriminate]. inversion H; subst. split; [reflexivity |].
    exists rd, true. eapply node_at_add_node_over; eassumption.
  - destruct (String.eqb p "") eqn:Hp; [discriminate |].
    destruct (Os.parent_error p w); [discriminate |].
    inversion H; subst. split; [reflexivity |].
    exists true, true. now apply node_at_add_node_fresh.
Qed.

Lemma write_file_raise p data w e w' :
  Os.write_file p data w = (Raise e, w') → w' = w.
Proof.
  unfold Os.write_file. intros H.
  destruct (Os.node_at p w) as [[| rd [] d] |]; try (inversion H; reflexivity).
  destruct (String.eqb p ""); [inversion H; reflexivity |].
  destruct (Os.parent_error p w); inversion H; reflexivity.
Qed.

(** Whether a write goes through does not depend on what is written. *)
Lemma write_file_succeeded p d1 d2 w :
  succeeded (fst (Os.write_file p d1 w)) = succeeded (fst (Os.write_file p d2 w)).
Proof.
  unfold Os.write_file.
  destruct (Os.node_at p w) as [[| rd [] d] |]; try reflexivity.
  destruct (String.eqb p ""); [reflexivity |].
  destruct (Os.parent_error p w); reflexivity.
Qed.

(** ** Persisting the store *)

Lemma save_cache_unfold this w :
  _save_cache (this, w) =
  match Os.makedirs (Os.path_dirname (cache_file this)) w with
  | (Ok _, w1) =>
      match Os.write_file (cache_file this) (json_dump (cache_data this)) w1 with
      | (r, w2) => (r, (this, w2))
      end
  | (Raise e, w1) => (Raise e, (this, w1))
  end.
Proof.
  unfold _save_cache, _ensure_data_dir, self, in_world. run_monad.
  destruct (Os.makedirs (Os.path_dirname (cache_file this)) w) as [[[] | e] w1];
    reflexivity.
Qed.

(** Whatever [_save_cache] does, [self] and the clock are untouched; if
    it returns, the file holds the map; if it raises, every node that
    was there is still there. *)
Lemma save_cache_result this w r s' :
  _save_cache (this, w) = (r, s') →
  fst s' = this ∧ clock (snd s') = clock w ∧
  (succeeded r = true → persisted this (snd s')) ∧
  (succeeded r = false →
   ∀ p n, Os.node_at p w = Some n → Os.node_at p (snd s') = Some n).
Proof.
  rewrite save_cache_unfold.
  destruct (Os.makedirs (Os.path_dirname (cache_file this)) w) as [r1 w1] eqn:Hmk.
  apply makedirs_only_new_dirs in Hmk. destruct r1 as [[] | e].
  - destruct (Os.write_file (cache_file this) (json_dump (cache_data this)) w1)
      as [r2 w2] eqn:Hwr.
    intros H; inversion H; subst; simpl. destruct r as [[] | e].
    + apply write_file_ok in Hwr as [Hck Hnode].
      repeat split; [destruct Hmk; congruence | intros _; exact Hnode | discriminate].
    + apply write_file_raise in Hwr; subst w2.
      repeat split; [apply Hmk | discriminate |].
      intros _ p n. now apply only_new_dirs_keeps.
  - intros H; inversion H; subst; simpl.
    repeat split; [apply Hmk | discriminate |].
    intros _ p n. now apply only_new_dirs_keeps.
Qed.

Lemma save_cache_succeeds_iff this w :
  succeeded (fst (_save_cache (this, w))) = backing_writable (cache_file this) w.
Proof.
  unfold backing_writable. rewrite !save_cache_unfold; simpl.
  destruct (Os.makedirs (Os.path_dirname (cache_file this)) w) as [[[] | e] w1];
    [| reflexivity].
  pose proof (write_file_succeeded (cache_file this)
                (json_dump (cache_data this)) (json_dump ∅) w1) as Hw.
  destruct (Os.write_file (cache_file this) (json_dump (cache_data this)) w1),
           (Os.write_file (cache_file this) (json_dump ∅) w1).
  exact Hw.
Qed.

Lemma save_cache_writable this w :
  backing_writable (cache_file this) w = true →
  ∃ w', _save_cache (this, w) = (Ok tt, (this, w')) ∧
        persisted this w' ∧ clock w' = clock w.
Proof.
  intros Hw. rewrite <- save_cache_succeeds_iff in Hw.
  destruct (_save_cache (this, w)) as [r [this' w']] eqn:Hs.
  destruct (save_cache_result _ _ _ _ Hs) as (Hself & Hclock & Hok & _).
  simpl in *. subst this'. destruct r as [[] | e]; [| discriminate].
  exists w'. auto.
Qed.

(** ** Expiry arithmetic *)

Lemma plus_minutes_naive t m d :
  Time.plus_minutes (Time.Naive t) m = Some d →
  d = Time.Naive (t + m * 60000000) ∧
  0 <= t + m * 60000000 <= Time.DATETIME_MAX.
Proof.
  unfold Time.plus_minutes, Time.timedelta_minutes, Time.datetime_add,
    Time.representable.
  change Time.MICROS_PER_MINUTE with 60000000.
  destruct ((Time.TIMEDELTA_MIN <=? m * 60000000)
            && (m * 60000000 <=? Time.TIMEDELTA_MAX)); simpl; [| discriminate].
  destruct ((0 <=? t + m * 60000000) && (t + m * 60000000 <=? Time.DATETIME_MAX))
    eqn:Hr; [| discriminate].
  intros H; inversion H; subst. split; [reflexivity |].
  apply andb_true_iff in Hr as [H0 H1]. lia.
Qed.

Lemma plus_minutes_zero t :
  0 <= t <= Time.DATETIME_MAX →
  Time.plus_minutes (Time.Naive t) 0 = Some (Time.Naive t).
Proof.
  intros Ht. unfold Time.plus_minutes, Time.timedelta_minutes. simpl.
  unfold Time.datetime_add, Time.representable. rewrite Z.add_0_r.
  destruct (0 <=? t) eqn:H0; [| lia].
  destruct (t <=? Time.DATETIME_MAX) eqn:H1; [reflexivity | lia].
Qed.

Section Expiry.

Variable fromisoformat : string -> option Time.datetime.

(** A timestamp whose expiry lies before [now] is expired, whether the
    expiry is representable or the addition overflows. *)
Lemma expired_when_past ttl now ts t :
  datetime_fromisoformat fromisoformat ts = Some (Time.Naive t) →
  t + ttl * 60000000 < now →
  is_expired_at fromisoformat ttl now ts = true.
Proof.
  intros Hp Hlt. unfold is_expired_at, expired_or_raises. rewrite Hp. simpl.
  destruct (Time.plus_minutes (Time.Naive t) ttl) as [d |] eqn:Hd; simpl;
    [| reflexivity].
  apply plus_minutes_naive in Hd as [-> _]. simpl. f_equal. lia.
Qed.

Lemma fresh_when_not_past ttl now ts t x :
  datetime_fromisoformat fromisoformat ts = Some (Time.Naive t) →
  Time.plus_minutes (Time.Naive t) ttl = Some (Time.Naive x) →
  now <= x → is_expired_at fromisoformat ttl now ts = false.
Proof.
  intros Hp Hd Hle. unfold is_expired_at, expired_or_raises.
  rewrite Hp. simpl. rewrite Hd. simpl. lia.
Qed.

Lemma expired_when_unparsable ttl now ts :
  datetime_fromisoformat fromisoformat ts = None →
  is_expired_at fromisoformat ttl now ts = true.
Proof.
  intros Hp. unfold is_expired_at, expired_or_raises. now rewrite Hp.
Qed.

(** What the test having answered "not expired" tells. *)
Lemma not_expired_inv ttl now ts :
  is_expired_at fromisoformat ttl now ts = false →
  ∃ t, datetime_fromisoformat fromisoformat ts = Some (Time.Naive t) ∧
       Time.plus_minutes (Time.Naive t) ttl = Some (Time.Naive (t + ttl * 60000000)) ∧
       now <= t + ttl * 60000000.
Proof.
  unfold is_expired_at, expired_or_raises.
  destruct (datetime_fromisoformat fromisoformat ts) as [[t | t off] |]; simpl;
    [| | discriminate].
  - destruct (Time.plus_minutes (Time.Naive t) ttl) as [d |] eqn:Hd; simpl;
      [| discriminate].
    destruct (plus_minutes_naive _ _ _ Hd) as [-> _]. simpl.
    intros H. exists t. repeat split; [assumption | lia].
  - destruct (Time.plus_minutes (Time.Aware t off) ttl) as [d |] eqn:Hd; simpl;
      [| discriminate].
    unfold Time.plus_minutes in Hd.
    destruct (Time.timedelta_minutes ttl); simpl in Hd; [| discriminate].
    destruct (Time.representable (t + z)); inversion Hd; subst. discriminate.
Qed.

(** ** The methods, one equation each *)

Lemma get_unfold this w symbol :
  get fromisoformat symbol (this, w) =
  match cache_data this !! symbol with
  | None => (Ok None, (this, w))
  | Some (JObj fields) =>
      if is_expired_at fromisoformat (ttl_minutes this) (clock w) (timestamp_of fields)
      then match _save_cache
                   (with_data (delete symbol (cache_data this)) this, w) with
           | (Ok _, s') => (Ok None, s')
           | (Raise e, s') => (Raise e, s')
           end
      else (Ok (Some (JObj fields)), (this, w))
  | Some _ => (Raise AttributeError, (this, w))
  end.
Proof.
  unfold get, self. run_monad.
  destruct (cache_data this !! symbol) as [entry |]; [| reflexivity].
  destruct entry; try reflexivity. simpl.
  unfold _is_expired, self, in_world, Os.datetime_now. run_monad.
  fold (timestamp_of fields).
  destruct (is_expired_at fromisoformat (ttl_minutes this) (clock w)
              (timestamp_of fields));
    [| reflexivity].
  unfold set_cache_data, with_data. run_monad.
  match goal with
  | |- context [_save_cache ?s] => destruct (_save_cache s) as [[[] | e] s']
  end;
    reflexivity.
Qed.

End Expiry.

Lemma save_unfold this w symbol data :
  save symbol data (this, w) =
  _save_cache (with_data (<[symbol := data]> (cache_data this)) this, w).
Proof.
  unfold save, set_cache_data, with_data. run_monad. reflexivity.
Qed.

Lemma with_data_same this : with_data (cache_data this) this = this.
Proof. now destruct this. Qed.

Lemma clear_unfold this w symbol :
  clear symbol (this, w) =
  _save_cache (with_data (cleared symbol (cache_data this)) this, w).
Proof.
  unfold clear, cleared, set_cache_data, self. run_monad.
  destruct symbol as [key |]; [| reflexivity].
  destruct (String.eqb key ""); simpl; [reflexivity |].
  destruct (bool_decide (is_Some (cache_data this !! key))) eqn:Hin; simpl.
  - reflexivity.
  - apply bool_decide_eq_false in Hin.
    rewrite delete_id, with_data_same; [reflexivity |].
    destruct (cache_data this !! key); [exfalso; apply Hin; eauto | reflexivity].
Qed.

(** ** What each method does, in terms of the entry map *)

Section Methods.

Variable fromisoformat : string -> option Time.datetime.

Lemma get_when_fresh this w symbol fields :
  cache_data this !! symbol = Some (JObj fields) →
  is_expired_at fromisoformat (ttl_minutes this) (clock w) (timestamp_of fields)
  = false →
  get fromisoformat symbol (this, w) = (Ok (Some (JObj fields)), (this, w)).
Proof. intros Hin He. now rewrite get_unfold, Hin, He. Qed.

Lemma get_when_expired this w symbol fields :
  cache_data this !! symbol = Some (JObj fields) →
  is_expired_at fromisoformat (ttl_minutes this) (clock w) (timestamp_of fields)
  = true →
  backing_writable (cache_file this) w = true →
  ∃ w', get fromisoformat symbol (this, w)
        = (Ok None, (with_data (delete symbol (cache_data this)) this, w')) ∧
        persisted (with_data (delete symbol (cache_data this)) this) w' ∧
        clock w' = clock w.
Proof.
  intros Hin He Hw. rewrite get_unfold, Hin, He.
  destruct (save_cache_writable
              (with_data (delete symbol (cache_data this)) this) w Hw)
    as (w' & Hs & Hper & Hck).
  exists w'. now rewrite Hs.
Qed.

(** An entry comes back from [get] only if the expiry test passed it. *)
Lemma get_some_inv this w symbol entry s' :
  get fromisoformat symbol (this, w) = (Ok (Some entry), s') →
  ∃ fields, entry = JObj fields ∧
            cache_data this !! symbol = Some (JObj fields) ∧
            is_expired_at fromisoformat (ttl_minutes this) (clock w)
              (timestamp_of fields) = false.
Proof.
  rewrite get_unfold.
  destruct (cache_data this !! symbol) as [[] |] eqn:Hin; try discriminate.
  destruct (is_expired_at fromisoformat (ttl_minutes this) (clock w)
              (timestamp_of fields)) eqn:He.
  - destruct (_save_cache _) as [[[] | e] s0]; discriminate.
  - intros H; inversion H; subst. eauto.
Qed.

(** After [save], whether or not the write went through, the object is
    the old one with the value put under the key. *)
Lemma save_state this w symbol data :
  fst (snd (save symbol data (this, w)))
  = with_data (<[symbol := data]> (cache_data this)) this.
Proof.
  rewrite save_unfold.
  destruct (_save_cache _) as [r s'] eqn:Hs.
  now destruct (save_cache_result _ _ _ _ Hs) as (Hself & _).
Qed.

Lemma node_at_set_clock p now w : Os.node_at p (set_clock now w) = Os.node_at p w.
Proof. reflexivity. Qed.

(** One call: the backing path and the clock stay; a completed write
    leaves the file holding the map; anything else leaves every node
    that was on disk in place. *)
Lemma run_effect op this w r this' w' :
  run fromisoformat op (this, w) = (r, (this', w')) →
  cache_file this' = cache_file this ∧ clock w' = clock w ∧
  (completed_write op this r = true → persisted this' w') ∧
  (completed_write op this r = false →
   ∀ p n, Os.node_at p w = Some n → Os.node_at p w' = Some n).
Proof.
  assert (Hwrite : ∀ data (k : outcome unit → outcome (option json)) ,
    (∀ u, succeeded (k u) = succeeded u) →
    ∀ r0 s0, _save_cache (with_data data this, w) = (r0, s0) →
    (k r0, s0) = (r, (this', w')) →
    cache_file this' = cache_file this ∧ clock w' = clock w ∧
    (succeeded r = true → persisted this' w') ∧
    (succeeded r = false →
     ∀ p n, Os.node_at p w = Some n → Os.node_at p w' = Some n)).
  { intros data k Hk r0 s0 Hs Heq. inversion Heq; subst.
    destruct (save_cache_result _ _ _ _ Hs) as (Hself & Hck & Hok & Hfail).
    simpl in *. subst this'. rewrite Hk. auto. }
  destruct op as [symbol data | symbol | symbol]; simpl.
  - run_monad. rewrite save_unfold.
    destruct (_save_cache _) as [r0 s0] eqn:Hs. intros H.
    destruct (Hwrite _ (λ u, match u with Ok _ => Ok None | Raise e => Raise e end)
                (λ u, match u with Ok _ => eq_refl | Raise _ => eq_refl end)
                _ _ Hs) as (H1 & H2 & H3 & H4).
    { destruct r0; exact H. }
    repeat split; try assumption; destruct r; simpl; auto; discriminate.
  - run_monad. rewrite clear_unfold.
    destruct (_save_cache _) as [r0 s0] eqn:Hs. intros H.
    destruct (Hwrite _ (λ u, match u with Ok _ => Ok None | Raise e => Raise e end)
                (λ u, match u with Ok _ => eq_refl | Raise _ => eq_refl end)
                _ _ Hs) as (H1 & H2 & H3 & H4).
    { destruct r0; exact H. }
    repeat split; try assumption; destruct r; simpl; auto; discriminate.
  - rewrite get_unfold. unfold completed_write.
    destruct (cache_data this !! symbol) as [entry |] eqn:Hin.
    2:{ intros H; inversion H; subst. repeat split; auto.
        intros Hc. apply bool_decide_eq_true in Hc. destruct Hc; discriminate. }
    destruct entry;
      try (intros H; inversion H; subst; repeat split; auto; discriminate).
    destruct (is_expired_at fromisoformat (ttl_minutes this) (clock w)
                (timestamp_of fields)).
    2:{ intros H; inversion H; subst; repeat split; auto; discriminate. }
    destruct (_save_cache _) as [r0 s0] eqn:Hs. intros H.
    destruct (Hwrite _ (λ u, match u with Ok _ => Ok None | Raise e => Raise e end)
                (λ u, match u with Ok _ => eq_refl | Raise _ => eq_refl end)
                _ _ Hs) as (H1 & H2 & H3 & H4).
    { destruct r0; exact H. }
    repeat split; try assumption.
    + intros Hc. apply H3. destruct r as [[] |]; try discriminate; reflexivity.
    + intros Hc. apply H4. destruct r0 as [[] |]; inversion H; subst; [| reflexivity].
      apply bool_decide_eq_false in Hc. exfalso; apply Hc; eauto.
Qed.

End Methods.

(** * The claims *)

Section Claims.

Variable fromisoformat : string -> option Time.datetime.

(** C1, as amended.  [save] stores the value as given and adds no
    timestamp of its own, so freshness is judged on the timestamp the
    value carries: for every key and every JSON object whose
    ['timestamp'] parses to a time [t] with [t] plus the TTL a
    representable time [x], [save] followed by [get] at any clock
    reading not after [x] returns the object unchanged, and that [get]
    changes nothing.  (Whether the write of [save] went through plays no
    role.) *)
Theorem save_then_get_returns_stamped_value this w symbol fields t x now :
  written_at fromisoformat fields = Some (Time.Naive t) →
  Time.plus_minutes (Time.Naive t) (ttl_minutes this) = Some (Time.Naive x) →
  now <= x →
  get fromisoformat symbol
    (at_time now (snd (save symbol (JObj fields) (this, w))))
  = (Ok (Some (JObj fields)),
     at_time now (snd (save symbol (JObj fields) (this, w)))).
Proof.
  intros Hp Hx Hle.
  pose proof (save_state this w symbol (JObj fields)) as Hst.
  destruct (save symbol (JObj fields) (this, w)) as [r [this' w']].
  simpl in Hst. subst this'. unfold at_time; simpl.
  apply get_when_fresh.
  - simpl. apply lookup_insert_eq.
  - simpl. eapply fresh_when_not_past; eassumption.
Qed.

(** C2, as amended.  [save] puts the value itself under the key,
    timestamp and all, as the caller built it (nothing is stamped),
    replacing whatever the key held and touching no other key; the TTL,
    the backing path and the clock are as before; the call returns
    exactly when the backing file is writable, and then the file holds
    the serialization of the whole map. *)
Theorem save_stores_value_verbatim this w symbol data :
  let r := fst (save symbol data (this, w)) in
  let this' := fst (snd (save symbol data (this, w))) in
  let w' := snd (snd (save symbol data (this, w))) in
  this' = with_data (<[symbol := data]> (cache_data this)) this ∧
  cache_data this' !! symbol = Some data ∧
  (∀ other, other ≠ symbol →
            cache_data this' !! other = cache_data this !! other) ∧
  clock w' = clock w ∧
  succeeded r = backing_writable (cache_file this) w ∧
  (succeeded r = true → persisted this' w').
Proof.
  intros r this' w'. subst r this' w'.
  pose proof (save_state this w symbol data) as Hst.
  pose proof (save_unfold this w symbol data) as Hun.
  pose proof (save_cache_succeeds_iff
                (with_data (<[symbol := data]> (cache_data this)) this) w) as Hiff.
  rewrite <- Hun in Hiff.
  destruct (save symbol data (this, w)) as [r [this' w']].
  symmetry in Hun. destruct (save_cache_result _ _ _ _ Hun) as (_ & Hck & Hok & _).
  simpl in *. subst this'. simpl.
  repeat split; try assumption.
  - apply lookup_insert_eq.
  - intros other Hne. now apply lookup_insert_ne.
Qed.

(** C3.  When the key is present and its entry's timestamp plus the TTL
    is earlier than the clock, [get] (the backing file being writable)
    deletes the entry from the in-memory map, rewrites the backing file
    with the map so updated, and returns not-found.  And whatever the
    state, an entry that [get] does return is not older than the TTL:
    its timestamp plus the TTL is not before the clock. *)
Theorem get_expired_evicts this w symbol fields t :
  cache_data this !! symbol = Some (JObj fields) →
  written_at fromisoformat fields = Some (Time.Naive t) →
  t + ttl_minutes this * 60000000 < clock w →
  backing_writable (cache_file this) w = true →
  (∃ w', get fromisoformat symbol (this, w)
         = (Ok None, (with_data (delete symbol (cache_data this)) this, w')) ∧
         delete symbol (cache_data this) !! symbol = None ∧
         persisted (with_data (delete symbol (cache_data this)) this) w' ∧
         clock w' = clock w) ∧
  (∀ this0 w0 key entry s',
     get fromisoformat key (this0, w0) = (Ok (Some entry), s') →
     ∃ fields0 t0,
       entry = JObj fields0 ∧
       written_at fromisoformat fields0 = Some (Time.Naive t0) ∧
       clock w0 <= t0 + ttl_minutes this0 * 60000000).
Proof.
  intros Hin Hp Hlt Hw. split.
  - destruct (get_when_expired fromisoformat this w symbol fields Hin)
      as (w' & Hg & Hper & Hck); try assumption.
    { eapply expired_when_past; eassumption. }
    exists w'. repeat split; try assumption. apply lookup_delete_eq.
  - clear. intros this0 w0 key entry s' Hg.
    apply get_some_inv in Hg as (fields0 & -> & _ & He).
    apply not_expired_inv in He as (t0 & Hp0 & _ & Hle). eauto.
Qed.

(** C5, as amended.  On a store whose TTL is 0 minutes, [get] after
    [save] (the backing file being writable) returns not-found unless
    the saved object's timestamp parses to a time that the clock has not
    passed; when it does, in particular when the object is stamped with
    the very instant the clock still reads, [get] returns the object.
    The comparison is strict: zero TTL expires an entry once the clock
    is later than its timestamp, not before. *)
Theorem zero_ttl_get_after_save this w symbol fields now :
  ttl_minutes this = 0 →
  backing_writable (cache_file this)
    (snd (at_time now (snd (save symbol (JObj fields) (this, w))))) = true →
  (∀ t, written_at fromisoformat fields = Some (Time.Naive t) →
        0 <= t <= Time.DATETIME_MAX → now <= t →
        fst (get fromisoformat symbol
               (at_time now (snd (save symbol (JObj fields) (this, w)))))
        = Ok (Some (JObj fields))) ∧
  ((¬ ∃ t, written_at fromisoformat fields = Some (Time.Naive t) ∧
           0 <= t <= Time.DATETIME_MAX ∧ now <= t) →
   fst (get fromisoformat symbol
          (at_time now (snd (save symbol (JObj fields) (this, w)))))
   = Ok None).
Proof.
  intros Httl.
  pose proof (save_state this w symbol (JObj fields)) as Hst.
  destruct (save symbol (JObj fields) (this, w)) as [r [this' w']].
  simpl in Hst. subst this'. unfold at_time; simpl. intros Hw.
  assert (Hin : cache_data
                  (with_data (<[symbol := JObj fields]> (cache_data this)) this)
                  !! symbol = Some (JObj fields)) by (simpl; apply lookup_insert_eq).
  split.
  - intros t Hp Ht Hle. erewrite get_when_fresh; [reflexivity | exact Hin |].
    simpl. rewrite Httl. eapply fresh_when_not_past; [eassumption | | eassumption].
    now apply plus_minutes_zero.
  - intros Hnone.
    destruct (get_when_expired fromisoformat _ (set_clock now w') symbol fields Hin)
      as (w'' & Hg & _); [| exact Hw | now rewrite Hg].
    simpl. rewrite Httl.
    destruct (is_expired_at fromisoformat 0 now (timestamp_of fields)) eqn:He;
      [reflexivity |].
    apply not_expired_inv in He as (t & Hp & Hplus & Hle).
    apply plus_minutes_naive in Hplus as [_ Hr].
    exfalso. apply Hnone. exists t. repeat split; try assumption; lia.
Qed.

(** C6.  When the key is present and its entry has no timestamp, or one
    that the parser rejects (the parser rejecting the empty string, as
    Python's does), [get] (the backing file being writable) treats the
    entry as expired: it deletes it from the in-memory map, rewrites
    the backing file and returns not-found. *)
Theorem get_unparsable_timestamp_evicts this w symbol fields :
  fromisoformat "" = None →
  cache_data this !! symbol = Some (JObj fields) →
  (fields !! "timestamp" = None ∨
   ∃ ts, fields !! "timestamp" = Some ts ∧
         datetime_fromisoformat fromisoformat ts = None) →
  backing_writable (cache_file this) w = true →
  ∃ w', get fromisoformat symbol (this, w)
        = (Ok None, (with_data (delete symbol (cache_data this)) this, w')) ∧
        delete symbol (cache_data this) !! symbol = None ∧
        persisted (with_data (delete symbol (cache_data this)) this) w' ∧
        clock w' = clock w.
Proof.
  intros Hempty Hin Hts Hw.
  assert (Hp : written_at fromisoformat fields = None).
  { unfold written_at, timestamp_of.
    destruct Hts as [-> | (ts & -> & Hp)]; assumption. }
  destruct (get_when_expired fromisoformat this w symbol fields Hin)
    as (w' & Hg & Hper & Hck); try assumption.
  { now apply expired_when_unparsable. }
  exists w'. repeat split; try assumption. apply lookup_delete_eq.
Qed.

(** C9.  A cache hit is pure: when the key is present and its entry is
    not expired (its timestamp parses to a time [t], [t] plus the TTL is
    a representable time, and the clock has not passed it), [get]
    returns the entry as stored and leaves both the object (hence the
    in-memory map) and the world (hence the backing file) exactly as
    they were. *)
Theorem get_hit_has_no_effect this w symbol fields t x :
  cache_data this !! symbol = Some (JObj fields) →
  written_at fromisoformat fields = Some (Time.Naive t) →
  Time.plus_minutes (Time.Naive t) (ttl_minutes this) = Some (Time.Naive x) →
  clock w <= x →
  get fromisoformat symbol (this, w) = (Ok (Some (JObj fields)), (this, w)).
Proof.
  intros Hin Hp Hx Hle. apply get_when_fresh; [assumption |].
  eapply fresh_when_not_past; eassumption.
Qed.

End Claims.

(** What the [try] of [_load_cache] does absorb: once [os.makedirs] has
    returned on the directory part of the backing path, a backing file
    that is absent, unreadable (a directory, or a file without read
    permission) or unparsable raises nothing and yields a store with no
    entries, nothing on disk being changed but the directories made. *)
Lemma init_absorbs_load_failure path ttl w w1 :
  Os.makedirs (Os.path_dirname path) w = (Ok tt, w1) →
  load_fails (Os.node_at path w) = true →
  __init__ path ttl w
  = (Ok (Opened {| cache_file := path; ttl_minutes := ttl; cache_data := ∅ |}), w1).
Proof.
  intros Hmk Hfail.
  destruct (makedirs_only_new_dirs _ _ _ _ Hmk) as [_ Hnodes].
  unfold __init__, _load_cache, _ensure_data_dir, self, in_world,
    Os.path_exists, Os.read_file, json_load.
  run_monad. rewrite Hmk. simpl.
  assert (Hnode : load_fails (Os.node_at path w1) = true).
  { destruct (Hnodes path) as [-> | [_ ->]]; [assumption | reflexivity]. }
  destruct (Os.node_at path w1) as [[| rd wr d] |] eqn:Hn; simpl;
    rewrite ?Hn; simpl; try reflexivity.
  destruct rd; simpl; [| reflexivity].
  destruct d; simpl; [discriminate | reflexivity].
Qed.

(** C4.  The constructor does not keep the claim on a backing path
    without a directory part, such as [cache.json]: [os.path.dirname]
    gives the empty string, [os.makedirs('')] raises [FileNotFoundError],
    and [_ensure_data_dir] is called before the [try] of [_load_cache],
    so the error reaches the caller.  This is so whatever the disk
    holds, a well-formed backing file included, and the disk is left as
    it was. *)
Theorem init_raises_on_bare_file_name path ttl w :
  Os.path_dirname path = "" →
  __init__ path ttl w = (Raise FileNotFoundError, w).
Proof.
  intros Hdir.
  unfold __init__, _load_cache, _ensure_data_dir, self, in_world.
  run_monad. rewrite Hdir. reflexivity.
Qed.

(** C7, as amended.  For every non-empty key, [clear(key)] (the backing
    file being writable) removes the entry of that key and no other,
    leaving the map as it was when the key is absent; [clear()] without
    a key empties the map; in every case the call then rewrites the
    backing file with the resulting map, changed or not.  (An empty key
    is taken for no key: see C10.) *)
Theorem clear_removes_and_persists this w (symbol : option string) :
  symbol ≠ Some "" →
  backing_writable (cache_file this) w = true →
  ∃ data' w',
    clear symbol (this, w) = (Ok tt, (with_data data' this, w')) ∧
    persisted (with_data data' this) w' ∧
    match symbol with
    | Some key =>
        data' !! key = None ∧
        (∀ other, other ≠ key → data' !! other = cache_data this !! other) ∧
        (cache_data this !! key = None → data' = cache_data this)
    | None => data' = ∅
    end.
Proof.
  intros Hkey Hw. exists (cleared symbol (cache_data this)).
  destruct (save_cache_writable
              (with_data (cleared symbol (cache_data this)) this) w Hw)
    as (w' & Hs & Hper & _).
  exists w'. rewrite clear_unfold. repeat split; try assumption.
  destruct symbol as [key |]; [| reflexivity]. simpl.
  destruct (String.eqb_spec key "") as [-> | _]; [congruence |].
  repeat split.
  - apply lookup_delete_eq.
  - intros other Hne. now apply lookup_delete_ne.
  - apply delete_id.
Qed.

(** C10.  [clear('')] empties the whole store: the empty string fails
    the truthiness test [if symbol:] like [None] does, so the call is
    [clear()] in every respect and no entry survives it, whichever keys
    the store held. *)
Theorem clear_empty_string_empties_store this w :
  clear (Some "") (this, w) = clear None (this, w) ∧
  cache_data (fst (snd (clear (Some "") (this, w)))) = ∅ ∧
  ∀ key, cache_data (fst (snd (clear (Some "") (this, w)))) !! key = None.
Proof.
  rewrite !clear_unfold. simpl.
  destruct (_save_cache (with_data ∅ this, w)) as [r s'] eqn:Hs.
  destruct (save_cache_result _ _ _ _ Hs) as (Hself & _).
  simpl. rewrite Hself. simpl.
  split; [reflexivity | split; [reflexivity | intros key; apply lookup_empty]].
Qed.

(** The file holds the map of the last completed write all along a
    history, given that it does at the start. *)
Lemma run_all_invariant fromisoformat history : ∀ s durable,
  (∀ m, durable = Some m → file_holds (cache_file (fst s)) m (snd s)) →
  ∀ m, snd (run_all fromisoformat history s durable) = Some m →
       file_holds (cache_file (fst (fst (run_all fromisoformat history s durable))))
         m (snd (fst (run_all fromisoformat history s durable))).
Proof.
  induction history as [| [op | now] rest IH]; intros [this w] durable Hinv; simpl.
  - exact Hinv.
  - destruct (run fromisoformat op (this, w)) as [r [this' w']] eqn:Hrun.
    destruct (run_effect _ _ _ _ _ _ _ Hrun) as (Hfile & _ & Hdone & Hkept).
    apply IH. simpl. intros m.
    destruct (completed_write op this r).
    + intros Hm; inversion Hm; subst. now apply Hdone.
    + intros Hm. rewrite Hfile.
      destruct (Hinv m Hm) as (rd & wr & Hnode). exists rd, wr. now apply Hkept.
  - apply IH. exact Hinv.
Qed.

(** C8.  After every [save], [clear] or evicting [get] that returns,
    the backing file holds the serialization of the in-memory map as the
    call left it; and along any history of calls and clock readings
    (calls that raise included, the client carrying on), the backing
    file holds the map as it was after the last call that completed a
    write. *)
Theorem backing_file_reflects_last_write fromisoformat :
  (∀ op this w,
     completed_write op this (fst (run fromisoformat op (this, w))) = true →
     persisted (fst (snd (run fromisoformat op (this, w))))
               (snd (snd (run fromisoformat op (this, w))))) ∧
  (∀ history s m,
     snd (run_all fromisoformat history s None) = Some m →
     file_holds (cache_file (fst (fst (run_all fromisoformat history s None))))
       m (snd (fst (run_all fromisoformat history s None)))).
Proof.
  split.
  - intros op this w.
    destruct (run fromisoformat op (this, w)) as [r [this' w']] eqn:Hrun.
    now destruct (run_effect _ _ _ _ _ _ _ Hrun) as (_ & _ & Hdone & _).
  - intros history s. apply run_all_invariant. discriminate.
Qed.

(** * The claims on concrete stores

    The parser is [Time.isoformat_parse]; the disk is empty unless said
    otherwise and the clock reads 2024-01-01T00:00:00. *)

Example path_split_samples :
  Os.path_split "data/cache.json" = ("data", "cache.json") ∧
  Os.path_split "cache.json" = ("", "cache.json") ∧
  Os.path_split "/cache.json" = ("/", "cache.json") ∧
  Os.path_split "a/b//c.json" = ("a/b", "c.json") ∧
  Os.path_split "a/b/" = ("a/b", "").
Proof. repeat split. Qed.

(** [makedirs] makes the whole chain, and is content with a directory
    that is there already. *)
Example makedirs_samples :
  fst (Os.makedirs "a/b/c" empty_disk) = Ok tt ∧
  Os.node_at "a" (snd (Os.makedirs "a/b/c" empty_disk)) = Some Dir ∧
  Os.node_at "a/b" (snd (Os.makedirs "a/b/c" empty_disk)) = Some Dir ∧
  Os.node_at "a/b/c" (snd (Os.makedirs "a/b/c" empty_disk)) = Some Dir ∧
  Os.makedirs "data" corrupt_disk = (Ok tt, corrupt_disk) ∧
  fst (Os.makedirs "" empty_disk) = Raise FileNotFoundError ∧
  fst (Os.makedirs "data" blocked_disk) = Raise FileExistsError ∧
  fst (Os.makedirs "data/sub" blocked_disk) = Raise NotADirectoryError.
Proof. repeat split; vm_compute; reflexivity. Qed.

(** A store saved to disk is read back by the next [__init__]. *)
Example reopen_sample :
  fst (__init__ "data/cache.json" 5
         (snd (snd (save "BTC" (JObj stamped_2024) (fresh_store 5, empty_disk)))))
  = Ok (Opened (with_data {[ "BTC" := JObj stamped_2024 ]} (fresh_store 5))).
Proof. vm_compute. reflexivity. Qed.

Example isoformat_parse_samples :
  Time.isoformat_parse "2024-01-01T00:00:00" = Some (Time.Naive NEW_YEAR_2024) ∧
  Time.isoformat_parse "2020-01-01T00:00:00" = Some (Time.Naive NEW_YEAR_2020) ∧
  Time.isoformat_parse "9999-12-31T23:59:59.999999"
    = Some (Time.Naive Time.DATETIME_MAX) ∧
  Time.isoformat_parse "" = None.
Proof. repeat split. Qed.

(** C1 as stated fails: [{'price': 45000}] saved under BTC on a
    five-minute store is not found by the [get] that follows at once;
    the value has no timestamp and [save] gave it none. *)
Lemma save_then_get_unstamped_is_not_found :
  fst (save "BTC" (JObj unstamped) (fresh_store 5, empty_disk)) = Ok tt ∧
  fst (get Time.isoformat_parse "BTC"
         (snd (save "BTC" (JObj unstamped) (fresh_store 5, empty_disk))))
  = Ok None.
Proof. split; vm_compute; reflexivity. Qed.

Lemma save_then_get_returns_stamped_value_witness :
  get Time.isoformat_parse "BTC"
    (at_time (NEW_YEAR_2024 + 60000000)
       (snd (save "BTC" (JObj stamped_2024) (fresh_store 5, empty_disk))))
  = (Ok (Some (JObj stamped_2024)),
     at_time (NEW_YEAR_2024 + 60000000)
       (snd (save "BTC" (JObj stamped_2024) (fresh_store 5, empty_disk)))).
Proof.
  apply (save_then_get_returns_stamped_value Time.isoformat_parse
           (fresh_store 5) empty_disk "BTC" stamped_2024
           NEW_YEAR_2024 (NEW_YEAR_2024 + 300000000) (NEW_YEAR_2024 + 60000000)).
  - reflexivity.
  - reflexivity.
  - vm_compute. discriminate.
Defined.

(** C2 as stated fails: an object stamped 2020 and saved in 2024 is
    stored with its 2020 timestamp, and an object without a timestamp
    is stored without one. *)
Lemma save_keeps_the_callers_timestamp :
  clock (snd (snd (save "BTC" (JObj stamped_2020) (fresh_store 5, empty_disk))))
  = NEW_YEAR_2024 ∧
  cache_data (fst (snd (save "BTC" (JObj stamped_2020) (fresh_store 5, empty_disk))))
    !! "BTC" = Some (JObj stamped_2020) ∧
  written_at Time.isoformat_parse stamped_2020
  = Some (Time.Naive NEW_YEAR_2020) ∧
  NEW_YEAR_2020 ≠ NEW_YEAR_2024 ∧
  cache_data (fst (snd (save "BTC" (JObj unstamped) (fresh_store 5, empty_disk))))
    !! "BTC" = Some (JObj unstamped) ∧
  unstamped !! "timestamp" = None.
Proof. repeat split; try (vm_compute; reflexivity). discriminate. Qed.

Lemma save_stores_value_verbatim_witness :
  persisted
    (fst (snd (save "BTC" (JObj stamped_2020) (fresh_store 5, empty_disk))))
    (snd (snd (save "BTC" (JObj stamped_2020) (fresh_store 5, empty_disk)))).
Proof.
  apply (save_stores_value_verbatim (fresh_store 5) empty_disk "BTC"
           (JObj stamped_2020)).
  vm_compute. reflexivity.
Defined.

Lemma get_expired_evicts_witness :
  ∃ w', get Time.isoformat_parse "BTC" (two_entries 5, ten_past)
        = (Ok None, (with_data (delete "BTC" (cache_data (two_entries 5)))
                       (two_entries 5), w')) ∧
        delete "BTC" (cache_data (two_entries 5)) !! "BTC" = None ∧
        persisted (with_data (delete "BTC" (cache_data (two_entries 5)))
                     (two_entries 5)) w' ∧
        clock w' = clock ten_past.
Proof.
  apply (get_expired_evicts Time.isoformat_parse (two_entries 5) ten_past
           "BTC" stamped_2024 NEW_YEAR_2024).
  - reflexivity.
  - reflexivity.
  - reflexivity.
  - vm_compute. reflexivity.
Defined.

(** Two ways for [os.makedirs] to fail ahead of the [try]: with no
    backing file anywhere, opening a store at [data/cache.json] raises
    [FileExistsError] when [data] is a regular file, and opening one at
    [cache.json], a path without a directory part, raises
    [FileNotFoundError] out of [os.makedirs('')]. *)
Lemma init_raises_when_directory_cannot_be_made :
  Os.node_at "data/cache.json" blocked_disk = None ∧
  fst (__init__ "data/cache.json" 5 blocked_disk) = Raise FileExistsError ∧
  Os.node_at "cache.json" empty_disk = None ∧
  Os.path_dirname "cache.json" = "" ∧
  fst (__init__ "cache.json" 5 empty_disk) = Raise FileNotFoundError.
Proof. repeat split; vm_compute; reflexivity. Qed.

Lemma init_raises_on_bare_file_name_witness :
  Os.node_at "cache.json" empty_disk = None ∧
  __init__ "cache.json" 5 empty_disk = (Raise FileNotFoundError, empty_disk).
Proof.
  split; [reflexivity |].
  apply (init_raises_on_bare_file_name "cache.json" 5 empty_disk).
  reflexivity.
Defined.

Lemma init_absorbs_load_failure_witness :
  __init__ "data/cache.json" 5 corrupt_disk
  = (Ok (Opened (fresh_store 5)), corrupt_disk).
Proof.
  apply (init_absorbs_load_failure "data/cache.json" 5 corrupt_disk corrupt_disk).
  - vm_compute. reflexivity.
  - vm_compute. reflexivity.
Defined.

(** C5 as stated fails: on a zero-TTL store, an object stamped with the
    instant the clock reads is returned by the [get] that follows its
    [save] with the clock unmoved; [now > expiry] is false when both are
    the same instant. *)
Lemma zero_ttl_same_instant_is_a_hit :
  fst (save "BTC" (JObj stamped_2024) (fresh_store 0, empty_disk)) = Ok tt ∧
  clock (snd (snd (save "BTC" (JObj stamped_2024) (fresh_store 0, empty_disk))))
  = NEW_YEAR_2024 ∧
  written_at Time.isoformat_parse stamped_2024
  = Some (Time.Naive NEW_YEAR_2024) ∧
  fst (get Time.isoformat_parse "BTC"
         (snd (save "BTC" (JObj stamped_2024) (fresh_store 0, empty_disk))))
  = Ok (Some (JObj stamped_2024)).
Proof. repeat split; vm_compute; reflexivity. Qed.

Lemma zero_ttl_get_after_save_witness :
  fst (get Time.isoformat_parse "BTC"
         (at_time NEW_YEAR_2024
            (snd (save "BTC" (JObj stamped_2024) (fresh_store 0, empty_disk)))))
  = Ok (Some (JObj stamped_2024)) ∧
  fst (get Time.isoformat_parse "BTC"
         (at_time (NEW_YEAR_2024 + 1)
            (snd (save "BTC" (JObj stamped_2024) (fresh_store 0, empty_disk)))))
  = Ok None.
Proof.
  split.
  - apply (proj1 (zero_ttl_get_after_save Time.isoformat_parse (fresh_store 0)
                    empty_disk "BTC" stamped_2024 NEW_YEAR_2024
                    eq_refl ltac:(vm_compute; reflexivity)) NEW_YEAR_2024).
    + reflexivity.
    + vm_compute. split; discriminate.
    + vm_compute. discriminate.
  - apply (proj2 (zero_ttl_get_after_save Time.isoformat_parse (fresh_store 0)
                    empty_disk "BTC" stamped_2024 (NEW_YEAR_2024 + 1)
                    eq_refl ltac:(vm_compute; reflexivity))).
    intros (t & Hp & _ & Hle). vm_compute in Hp. inversion Hp; subst t.
    vm_compute in Hle. now apply Hle.
Defined.

Lemma get_unparsable_timestamp_evicts_witness :
  ∃ w', get Time.isoformat_parse "ETH" (two_entries 5, ten_past)
        = (Ok None, (with_data (delete "ETH" (cache_data (two_entries 5)))
                       (two_entries 5), w')) ∧
        delete "ETH" (cache_data (two_entries 5)) !! "ETH" = None ∧
        persisted (with_data (delete "ETH" (cache_data (two_entries 5)))
                     (two_entries 5)) w' ∧
        clock w' = clock ten_past.
Proof.
  apply (get_unparsable_timestamp_evicts Time.isoformat_parse (two_entries 5)
           ten_past "ETH" unstamped).
  - reflexivity.
  - reflexivity.
  - left. reflexivity.
  - vm_compute. reflexivity.
Defined.

(** C7 as stated fails at the empty key: [clear('')] on a store holding
    BTC and ETH and nothing under the empty key removes BTC and ETH. *)
Lemma clear_empty_key_removes_other_entries :
  cache_data (two_entries 5) !! "" = None ∧
  cache_data (two_entries 5) !! "BTC" = Some (JObj stamped_2024) ∧
  fst (clear (Some "") (two_entries 5, ten_past)) = Ok tt ∧
  cache_data (fst (snd (clear (Some "") (two_entries 5, ten_past)))) !! "BTC"
  = None.
Proof. repeat split; vm_compute; reflexivity. Qed.

Lemma clear_removes_and_persists_witness :
  ∃ data' w',
    clear (Some "BTC") (two_entries 5, ten_past)
    = (Ok tt, (with_data data' (two_entries 5), w')) ∧
    persisted (with_data data' (two_entries 5)) w' ∧
    data' !! "BTC" = None ∧
    (∀ other, other ≠ "BTC" →
              data' !! other = cache_data (two_entries 5) !! other) ∧
    (cache_data (two_entries 5) !! "BTC" = None →
     data' = cache_data (two_entries 5)).
Proof.
  apply (clear_removes_and_persists (two_entries 5) ten_past (Some "BTC")).
  - discriminate.
  - vm_compute. reflexivity.
Defined.

Lemma backing_file_reflects_last_write_witness :
  persisted
    (fst (snd (run Time.isoformat_parse (Get "BTC") (two_entries 5, ten_past))))
    (snd (snd (run Time.isoformat_parse (Get "BTC") (two_entries 5, ten_past)))) ∧
  file_holds "data/cache.json" {[ "ETH" := JObj stamped_2024 ]}
    (snd (fst (run_all Time.isoformat_parse sample_history
                 (fresh_store 5, empty_disk) None))).
Proof.
  split.
  - apply (proj1 (backing_file_reflects_last_write Time.isoformat_parse)
             (Get "BTC") (two_entries 5) ten_past).
    vm_compute. reflexivity.
  - apply (proj2 (backing_file_reflects_last_write Time.isoformat_parse)
             sample_history (fresh_store 5, empty_disk)
             {[ "ETH" := JObj stamped_2024 ]}).
    vm_compute. reflexivity.
Defined.

Lemma get_hit_has_no_effect_witness :
  get Time.isoformat_parse "BTC" (two_entries 15, ten_past)
  = (Ok (Some (JObj stamped_2024)), (two_entries 15, ten_past)).
Proof.
  apply (get_hit_has_no_effect Time.isoformat_parse (two_entries 15) ten_past
           "BTC" stamped_2024 NEW_YEAR_2024 (NEW_YEAR_2024 + 900000000)).
  - reflexivity.
  - reflexivity.
  - reflexivity.
  - vm_compute. discriminate.
Defined.

(** * More of the code

    What follows goes beyond the claims: the disk staying consistent
    under the store's writes, what that buys (a write that went through
    once goes through again; a store written is a store read back), and
    the edges of [get]. *)

(** ** Consistent disks *)

Lemma node_at_Some_inv p w n :
  Os.node_at p w = Some n →
  (Os.is_root p = true ∧ n = Dir) ∨
  (Os.is_root p = false ∧ String.eqb p "" = false ∧ files w !! p = Some n).
Proof.
  unfold Os.node_at. destruct (String.eqb p ""); [discriminate |].
  destruct (Os.is_root p).
  - intros H; inversion H. now left.
  - intros H. right. auto.
Qed.

Lemma parent_error_None_inv p w :
  Os.parent_error p w = None →
  Os.path_dirname p = "" ∨ Os.node_at (Os.path_dirname p) w = Some Dir.
Proof.
  unfold Os.parent_error.
  destruct (String.eqb_spec (Os.path_dirname p) "") as [-> | _]; [now left |].
  destruct (Os.node_at (Os.path_dirname p) w) as [[|] |]; try discriminate.
  now right.
Qed.

Lemma consistent_parent p w n :
  consistent w → Os.node_at p w = Some n → Os.is_root p = false →
  Os.parent_error p w = None.
Proof.
  intros Hc Hn Hroot. apply node_at_Some_inv in Hn as [[Hr _] | (_ & _ & Hf)];
    [congruence |].
  exact (Hc p n Hf).
Qed.

(** Putting a node where there was no directory takes the parent of
    nothing away. *)
Lemma parent_error_add_node p n w q :
  Os.node_at p w ≠ Some Dir → Os.parent_error q w = None →
  Os.parent_error q (Os.add_node p n w) = None.
Proof.
  intros Hp. unfold Os.parent_error.
  destruct (String.eqb (Os.path_dirname q) "") eqn:Hd; [reflexivity |].
  destruct (Os.node_at (Os.path_dirname q) w) as [[|] |] eqn:Hn; try discriminate.
  intros _. rewrite node_at_add_node, Hd.
  destruct (Os.is_root (Os.path_dirname q)) eqn:Hr; [reflexivity |].
  destruct (decide (p = Os.path_dirname q)) as [-> | _]; [contradiction |].
  apply node_at_Some_inv in Hn as [[Hr' _] | (_ & _ & Hf)]; [congruence |].
  now rewrite Hf.
Qed.

Lemma add_node_consistent p n w :
  consistent w → Os.parent_error p w = None → Os.node_at p w ≠ Some Dir →
  consistent (Os.add_node p n w).
Proof.
  intros Hc Hparent Hp q x. unfold Os.add_node at 1; simpl.
  destruct (decide (p = q)) as [<- | Hne].
  - intros _. now apply parent_error_add_node.
  - rewrite lookup_insert_ne by assumption. intros Hq.
    apply parent_error_add_node; [assumption |]. exact (Hc q x Hq).
Qed.

Lemma mkdir_consistent p w r w' :
  Os.mkdir p w = (r, w') → consistent w → consistent w'.
Proof.
  unfold Os.mkdir. intros H Hc.
  destruct (String.eqb p ""); [inversion H; subst; assumption |].
  destruct (Os.parent_error p w) eqn:Hparent; [inversion H; subst; assumption |].
  destruct (Os.node_at p w) eqn:Hn; inversion H; subst; [assumption |].
  apply add_node_consistent; [assumption | assumption | congruence].
Qed.

Lemma write_file_consistent p data w r w' :
  Os.write_file p data w = (r, w') → consistent w → consistent w'.
Proof.
  unfold Os.write_file. intros H Hc.
  destruct (Os.node_at p w) as [[| rd wr d] |] eqn:Hn.
  - inversion H; subst; assumption.
  - destruct wr; inversion H; subst; [| assumption].
    apply add_node_consistent; [assumption | | congruence].
    apply (consistent_parent p w _ Hc Hn).
    apply node_at_Some_inv in Hn as [[_ Hd] | (Hr & _)]; [discriminate | exact Hr].
  - destruct (String.eqb p ""); [inversion H; subst; assumption |].
    destruct (Os.parent_error p w) eqn:Hparent; inversion H; subst; [assumption |].
    apply add_node_consistent; [assumption | assumption | congruence].
Qed.

(** Whatever [mkdir] keeps, [makedirs] keeps, however far it gets. *)
Lemma makedirs_fuel_preserves (P : World → Prop) :
  (∀ p w r w', Os.mkdir p w = (r, w') → P w → P w') →
  ∀ fuel name w r w', Os.makedirs_fuel fuel name w = (r, w') → P w → P w'.
Proof.
  intros Hmk.
  assert (Hleaf : ∀ name w r w', Os.makedirs_leaf name w = (r, w') → P w → P w').
  { intros name w r w'. unfold Os.makedirs_leaf, Os.path_isdir. run_monad.
    destruct (Os.mkdir name w) as [r0 w0] eqn:Hm. intros H HP.
    apply Hmk in Hm; [| assumption].
    destruct r0 as [[] | e]; [inversion H; subst; assumption |].
    destruct (is_OSError e); [| inversion H; subst; assumption].
    destruct (Os.node_at name w0) as [[|] |]; inversion H; subst; assumption. }
  induction fuel as [| fuel IH]; intros name w r w'; simpl;
    unfold Os.makedirs_step, Os.path_exists;
    destruct (Os.makedirs_parts name) as [head tail]; run_monad;
    destruct (negb (String.eqb head "") && negb (String.eqb tail "")
              && negb (bool_decide (is_Some (Os.node_at head w))));
    try apply Hleaf.
  - intros H HP; inversion H; subst; assumption.
  - destruct (Os.makedirs_fuel fuel head w) as [r1 w1] eqn:Hrec.
    intros H HP. apply IH in Hrec; [| assumption].
    assert (Hrest : ∀ r2 w2,
      (if String.eqb tail "." then λ s : World, (Ok tt, s)
       else Os.makedirs_leaf name) w1 = (r2, w2) → P w2).
    { intros r2 w2 H2. destruct (String.eqb tail ".").
      - inversion H2; subst. assumption.
      - eapply Hleaf; eassumption. }
    destruct r1 as [[] | e]; [eapply Hrest; eassumption |].
    destruct e; try (inversion H; subst; assumption).
    eapply Hrest; eassumption.
Qed.

Lemma makedirs_consistent name w r w' :
  Os.makedirs name w = (r, w') → consistent w → consistent w'.
Proof. apply makedirs_fuel_preserves. exact mkdir_consistent. Qed.

(** *** A directory that is there is left alone *)

Lemma path_split_root p : Os.is_root p = true → Os.path_split p = (p, "").
Proof.
  unfold Os.is_root, Os.path_split. intros H.
  apply andb_true_iff in H as [_ Hall].
  assert (Hrev : forallb Os.is_slash (rev (list_ascii_of_string p)) = true).
  { apply forallb_forall. intros c Hc. apply in_rev in Hc.
    exact (proj1 (forallb_forall _ _) Hall c Hc). }
  set (r := rev (list_ascii_of_string p)) in *.
  assert (Htake : Os.take_while (λ c, negb (Os.is_slash c)) r = [] ∧
                  Os.drop_while (λ c, negb (Os.is_slash c)) r = r).
  { destruct r as [| c r']; [now split |]. simpl in *.
    apply andb_true_iff in Hrev as [-> _]. now split. }
  destruct Htake as [-> ->]. rewrite Hrev. unfold r. simpl.
  now rewrite rev_involutive, string_of_list_ascii_of_string.
Qed.

Lemma makedirs_leaf_existing name w :
  Os.node_at name w = Some Dir → Os.makedirs_leaf name w = (Ok tt, w).
Proof.
  intros Hn. unfold Os.makedirs_leaf, Os.mkdir, Os.path_isdir. run_monad.
  destruct (String.eqb name "") eqn:Hname.
  { unfold Os.node_at in Hn. now rewrite Hname in Hn. }
  unfold Os.parent_error.
  destruct (String.eqb (Os.path_dirname name) "").
  - rewrite Hn. simpl. now rewrite Hn.
  - destruct (Os.node_at (Os.path_dirname name) w) as [[|] |]; simpl;
      rewrite Hn; simpl; rewrite ?Hn; reflexivity.
Qed.

(** On a consistent disk, the head [makedirs] would recurse on is there
    whenever the directory itself is. *)
Lemma makedirs_parts_present name w :
  consistent w → Os.node_at name w = Some Dir →
  fst (Os.makedirs_parts name) = "" ∨ snd (Os.makedirs_parts name) = "" ∨
  is_Some (Os.node_at (fst (Os.makedirs_parts name)) w).
Proof.
  intros Hc Hn. unfold Os.makedirs_parts.
  destruct (Os.is_root name) eqn:Hroot.
  { rewrite (path_split_root name Hroot). cbn -[Os.path_split Os.node_at].
    rewrite (path_split_root name Hroot). cbn -[Os.path_split Os.node_at]. auto. }
  pose proof (consistent_parent name w _ Hc Hn Hroot) as Hparent.
  apply parent_error_None_inv in Hparent. unfold Os.path_dirname in Hparent.
  destruct (Os.path_split name) as [head0 tail0]; simpl in Hparent.
  destruct (String.eqb tail0 "").
  - destruct Hparent as [-> | Hhead0]; [left; reflexivity |].
    destruct (Os.is_root head0) eqn:Hroot0.
    { rewrite (path_split_root head0 Hroot0). cbn -[Os.path_split Os.node_at].
      auto. }
    pose proof (consistent_parent head0 w _ Hc Hhead0 Hroot0) as Hparent0.
    apply parent_error_None_inv in Hparent0. unfold Os.path_dirname in Hparent0.
    destruct Hparent0 as [-> | ->]; eauto.
  - simpl. destruct Hparent as [-> | ->]; eauto.
Qed.

Lemma makedirs_existing name w :
  consistent w → Os.node_at name w = Some Dir → Os.makedirs name w = (Ok tt, w).
Proof.
  intros Hc Hn. pose proof (makedirs_parts_present name w Hc Hn) as Hparts.
  unfold Os.makedirs. destruct (String.length name); simpl;
    unfold Os.makedirs_step, Os.path_exists; run_monad;
    destruct (Os.makedirs_parts name) as [head tail]; simpl in *;
    assert (Hcond : negb (String.eqb head "") && negb (String.eqb tail "")
                    && negb (bool_decide (is_Some (Os.node_at head w))) = false)
      by (destruct Hparts as [-> | [-> | Hsome]];
          [reflexivity | now rewrite andb_false_r
          | rewrite (bool_decide_eq_true_2 _ Hsome); now rewrite andb_false_r]);
    rewrite Hcond; now apply makedirs_leaf_existing.
Qed.

Lemma makedirs_empty w : Os.makedirs "" w = (Raise FileNotFoundError, w).
Proof. reflexivity. Qed.

(** ** After a write that went through *)

Lemma node_at_add_node_dir p n w q :
  Os.node_at q w = Some Dir → Os.node_at p w ≠ Some Dir →
  Os.node_at q (Os.add_node p n w) = Some Dir.
Proof.
  intros Hq Hp. rewrite node_at_add_node.
  destruct (decide (p = q)) as [-> | _]; [contradiction |].
  unfold Os.node_at in Hq.
  destruct (String.eqb q ""); [discriminate |].
  destruct (Os.is_root q); [reflexivity | assumption].
Qed.

(** A write that went through on a consistent disk leaves a consistent
    disk, on which the parent directory is there and the backing file
    is a writable file holding the map; the file is readable if it was
    so, or was not there, before. *)
Lemma save_cache_settles this w w2 :
  consistent w →
  _save_cache (this, w) = (Ok tt, (this, w2)) →
  consistent w2 ∧
  Os.node_at (Os.path_dirname (cache_file this)) w2 = Some Dir ∧
  ∃ readable,
    Os.node_at (cache_file this) w2
    = Some (File readable true (json_dump (cache_data this))) ∧
    (absent_or_readable (Os.node_at (cache_file this) w) = true → readable = true).
Proof.
  intros Hc. rewrite save_cache_unfold.
  destruct (Os.makedirs (Os.path_dirname (cache_file this)) w) as [r1 w1] eqn:Hmk.
  pose proof (makedirs_consistent _ _ _ _ Hmk Hc) as Hc1.
  pose proof (makedirs_only_new_dirs _ _ _ _ Hmk) as [_ Hnodes].
  destruct r1 as [[] | e]; [| discriminate].
  assert (Hdir : Os.path_dirname (cache_file this) ≠ "").
  { intros Hd. rewrite Hd, makedirs_empty in Hmk. discriminate. }
  destruct (Os.write_file (cache_file this) (json_dump (cache_data this)) w1)
    as [r2 w2'] eqn:Hwr.
  intros H; inversion H; subst r2 w2'.
  pose proof (write_file_consistent _ _ _ _ _ Hwr Hc1) as Hc2.
  unfold Os.write_file in Hwr.
  assert (Hadd : ∀ n, Os.parent_error (cache_file this) w1 = None →
            Os.node_at (cache_file this) w1 ≠ Some Dir →
            Os.node_at (Os.path_dirname (cache_file this))
              (Os.add_node (cache_file this) n w1) = Some Dir).
  { intros n Hparent Hnot.
    apply parent_error_None_inv in Hparent as [Hd | Hd]; [contradiction |].
    now apply node_at_add_node_dir. }
  destruct (Os.node_at (cache_file this) w1) as [[| rd wr d] |] eqn:Hn.
  - discriminate.
  - destruct wr; inversion Hwr; subst w2. split; [assumption |].
    assert (Hparent : Os.parent_error (cache_file this) w1 = None).
    { apply (consistent_parent _ _ _ Hc1 Hn).
      apply node_at_Some_inv in Hn as [[_ Hd] | (Hr & _)]; [discriminate | exact Hr]. }
    split; [apply Hadd; [assumption | congruence] |].
    exists rd. split; [eapply node_at_add_node_over; eassumption |].
    destruct (Hnodes (cache_file this)) as [E | [_ E]]; [| congruence].
    rewrite <- E, Hn. simpl. auto.
  - destruct (String.eqb (cache_file this) "") eqn:Hf; [discriminate |].
    destruct (Os.parent_error (cache_file this) w1) eqn:Hparent; [discriminate |].
    inversion Hwr; subst w2. split; [assumption |].
    split; [apply Hadd; [reflexivity | discriminate] |].
    exists true. split; [now apply node_at_add_node_fresh | auto].
Qed.

(** Where the directory is there and the file is a writable file, a
    write goes through. *)
Lemma settled_is_writable path w readable data :
  consistent w →
  Os.node_at (Os.path_dirname path) w = Some Dir →
  Os.node_at path w = Some (File readable true data) →
  backing_writable path w = true.
Proof.
  intros Hc Hd Hf. unfold backing_writable. rewrite save_cache_unfold. simpl.
  rewrite (makedirs_existing _ _ Hc Hd). unfold Os.write_file. now rewrite Hf.
Qed.

(** Where the directory is there and the file is a readable file
    holding a map, [__init__] loads that map and touches nothing. *)
Lemma settled_is_loadable path ttl w writable data :
  consistent w →
  Os.node_at (Os.path_dirname path) w = Some Dir →
  Os.node_at path w = Some (File true writable (json_dump data)) →
  __init__ path ttl w
  = (Ok (Opened {| cache_file := path; ttl_minutes := ttl; cache_data := data |}), w).
Proof.
  intros Hc Hd Hf.
  unfold __init__, _load_cache, _ensure_data_dir, self, in_world,
    Os.path_exists, Os.read_file, json_load.
  run_monad. rewrite (makedirs_existing _ _ Hc Hd). simpl.
  rewrite Hf. simpl. rewrite Hf. reflexivity.
Qed.

Lemma consistent_set_clock now w : consistent w → consistent (set_clock now w).
Proof. intros Hc. exact Hc. Qed.

Section AfterWrite.

Variable fromisoformat : string -> option Time.datetime.

(** A call that completed a write did so by [_save_cache] returning on
    the object with its new map. *)
Lemma completed_write_inv op this w :
  completed_write op this (fst (run fromisoformat op (this, w))) = true →
  ∃ data' w',
    snd (run fromisoformat op (this, w)) = (with_data data' this, w') ∧
    _save_cache (with_data data' this, w) = (Ok tt, (with_data data' this, w')).
Proof.
  assert (Hsave : ∀ data' r s',
    _save_cache (with_data data' this, w) = (r, s') →
    succeeded r = true →
    ∃ w', s' = (with_data data' this, w') ∧ r = Ok tt).
  { intros data' r [this' w'] Hs Hr.
    destruct (save_cache_result _ _ _ _ Hs) as (Hself & _).
    simpl in Hself. subst this'. destruct r as [[] | e]; [| discriminate]. eauto. }
  destruct op as [symbol data | symbol | symbol]; simpl.
  - run_monad. rewrite save_unfold.
    destruct (_save_cache _) as [r s'] eqn:Hs.
    destruct r as [[] | e]; simpl; [| discriminate]. intros _.
    destruct (Hsave _ _ _ Hs eq_refl) as (w' & -> & _). eauto.
  - run_monad. rewrite clear_unfold.
    destruct (_save_cache _) as [r s'] eqn:Hs.
    destruct r as [[] | e]; simpl; [| discriminate]. intros _.
    destruct (Hsave _ _ _ Hs eq_refl) as (w' & -> & _). eauto.
  - rewrite get_unfold.
    destruct (cache_data this !! symbol) as [entry |] eqn:Hin; simpl.
    2:{ discriminate. }
    destruct entry; simpl; try discriminate.
    destruct (is_expired_at fromisoformat (ttl_minutes this) (clock w)
                (timestamp_of fields)); simpl; [| discriminate].
    destruct (_save_cache _) as [r s'] eqn:Hs.
    destruct r as [[] | e]; simpl; [| discriminate]. intros _.
    destruct (Hsave _ _ _ Hs eq_refl) as (w' & -> & _). eauto.
Qed.

End AfterWrite.

Lemma write_file_raises_OSError p data w e w' :
  Os.write_file p data w = (Raise e, w') → is_OSError e = true.
Proof.
  unfold Os.write_file, Os.parent_error. intros H.
  destruct (Os.node_at p w) as [[| rd [] d] |]; try (inversion H; reflexivity).
  destruct (String.eqb p ""); [inversion H; reflexivity |].
  destruct (String.eqb (Os.path_dirname p) ""); [discriminate |].
  destruct (Os.node_at (Os.path_dirname p) w) as [[|] |];
    inversion H; reflexivity.
Qed.

Lemma save_cache_raises_OSError this w e s' :
  _save_cache (this, w) = (Raise e, s') → is_OSError e = true.
Proof.
  rewrite save_cache_unfold.
  destruct (Os.makedirs (Os.path_dirname (cache_file this)) w) as [[[] | e1] w1] eqn:Hmk.
  - destruct (Os.write_file (cache_file this) (json_dump (cache_data this)) w1)
      as [r2 w2] eqn:Hwr.
    intros H; inversion H; subst. eapply write_file_raises_OSError; eassumption.
  - intros H; inversion H; subst. eapply makedirs_raises_OSError; eassumption.
Qed.

Lemma clear_state this w symbol :
  fst (snd (clear symbol (this, w)))
  = with_data (cleared symbol (cache_data this)) this.
Proof.
  rewrite clear_unfold.
  destruct (_save_cache _) as [r s'] eqn:Hs.
  now destruct (save_cache_result _ _ _ _ Hs) as (Hself & _).
Qed.

Section Edges.

Variable fromisoformat : string -> option Time.datetime.

Lemma expired_when_aware ttl now ts us off :
  datetime_fromisoformat fromisoformat ts = Some (Time.Aware us off) →
  is_expired_at fromisoformat ttl now ts = true.
Proof.
  intros Hp. unfold is_expired_at, expired_or_raises. rewrite Hp. simpl.
  unfold Time.plus_minutes.
  destruct (Time.timedelta_minutes ttl); simpl; [| reflexivity].
  destruct (Time.representable (us + z)); reflexivity.
Qed.

Lemma expired_when_unrepresentable ttl now ts t :
  datetime_fromisoformat fromisoformat ts = Some (Time.Naive t) →
  Time.DATETIME_MAX < t + ttl * 60000000 →
  is_expired_at fromisoformat ttl now ts = true.
Proof.
  intros Hp Hbig. unfold is_expired_at, expired_or_raises. rewrite Hp. simpl.
  destruct (Time.plus_minutes (Time.Naive t) ttl) as [d |] eqn:Hd; simpl;
    [| reflexivity].
  apply plus_minutes_naive in Hd as [_ Hr]. lia.
Qed.

(** A key that is not in the map is not found, and nothing happens. *)
Lemma get_when_absent this w key :
  cache_data this !! key = None →
  get fromisoformat key (this, w) = (Ok None, (this, w)).
Proof. intros Hin. now rewrite get_unfold, Hin. Qed.

(** X1.  [clear(key)] followed by [get(key)] finds nothing, whatever the
    store held, whatever the key (the empty one included), whether or
    not the write of [clear] went through and however the clock moved in
    between; the same after [clear()].  That [get] changes nothing. *)
Theorem clear_then_get_is_not_found this w (symbol : option string) key now :
  (∀ k, symbol = Some k → k = key) →
  get fromisoformat key (at_time now (snd (clear symbol (this, w))))
  = (Ok None, at_time now (snd (clear symbol (this, w)))).
Proof.
  intros Hkey.
  pose proof (clear_state this w symbol) as Hst.
  destruct (clear symbol (this, w)) as [r [this' w']].
  simpl in Hst. subst this'. unfold at_time; simpl.
  apply get_when_absent. simpl. unfold cleared.
  destruct symbol as [k |]; [| apply lookup_empty].
  rewrite (Hkey k eq_refl).
  destruct (String.eqb key ""); [apply lookup_empty | apply lookup_delete_eq].
Qed.

(** X2.  [get(key)] never adds an entry and never touches the entry of
    another key, the backing path or the TTL: afterwards, every other
    key holds what it held, and [key] holds what it held or nothing,
    whether the call returned or raised. *)
Theorem get_touches_no_other_key this w key :
  cache_file (fst (snd (get fromisoformat key (this, w)))) = cache_file this ∧
  ttl_minutes (fst (snd (get fromisoformat key (this, w)))) = ttl_minutes this ∧
  (∀ other, other ≠ key →
     cache_data (fst (snd (get fromisoformat key (this, w)))) !! other
     = cache_data this !! other) ∧
  (cache_data (fst (snd (get fromisoformat key (this, w)))) !! key
   = cache_data this !! key ∨
   cache_data (fst (snd (get fromisoformat key (this, w)))) !! key = None).
Proof.
  rewrite get_unfold.
  destruct (cache_data this !! key) as [entry |] eqn:Hin; simpl;
    [| rewrite Hin; auto].
  destruct entry; simpl; try (rewrite Hin; auto).
  destruct (is_expired_at fromisoformat (ttl_minutes this) (clock w)
              (timestamp_of fields)); simpl; [| rewrite Hin; auto].
  destruct (_save_cache _) as [r s'] eqn:Hs.
  destruct (save_cache_result _ _ _ _ Hs) as (Hself & _).
  assert (Hstate : fst (snd (match r with
                             | Ok _ => (Ok (@None json), s')
                             | Raise e => (Raise e, s')
                             end)) = with_data (delete key (cache_data this)) this)
    by (destruct r; exact Hself).
  rewrite Hstate. simpl. repeat split.
  - intros other Hne. now apply lookup_delete_ne.
  - right. apply lookup_delete_eq.
Qed.

(** X3.  An entry whose timestamp carries a UTC offset never counts as
    fresh: comparing the naive [datetime.now()] with an aware expiry
    raises inside the [try], which [_is_expired] answers with [True].
    Whatever the TTL and the clock, [get] (the backing file being
    writable) evicts the entry and returns not-found. *)
Theorem get_aware_timestamp_evicts this w key fields us off :
  cache_data this !! key = Some (JObj fields) →
  written_at fromisoformat fields = Some (Time.Aware us off) →
  backing_writable (cache_file this) w = true →
  ∃ w', get fromisoformat key (this, w)
        = (Ok None, (with_data (delete key (cache_data this)) this, w')) ∧
        persisted (with_data (delete key (cache_data this)) this) w'.
Proof.
  intros Hin Hp Hw.
  destruct (get_when_expired fromisoformat this w key fields Hin)
    as (w' & Hg & Hper & _); [| assumption | eauto].
  eapply expired_when_aware; eassumption.
Qed.

(** X4.  A TTL so long that the expiry falls after [datetime.max]
    (year 9999) does not keep entries for ever, it keeps none: the
    addition overflows inside the [try] and the entry counts as expired.
    Whatever the clock, [get] (the backing file being writable) evicts
    the entry and returns not-found. *)
Theorem get_ttl_overflow_evicts this w key fields t :
  cache_data this !! key = Some (JObj fields) →
  written_at fromisoformat fields = Some (Time.Naive t) →
  Time.DATETIME_MAX < t + ttl_minutes this * 60000000 →
  backing_writable (cache_file this) w = true →
  ∃ w', get fromisoformat key (this, w)
        = (Ok None, (with_data (delete key (cache_data this)) this, w')) ∧
        persisted (with_data (delete key (cache_data this)) this) w'.
Proof.
  intros Hin Hp Hbig Hw.
  destruct (get_when_expired fromisoformat this w key fields Hin)
    as (w' & Hg & Hper & _); [| assumption | eauto].
  eapply expired_when_unrepresentable; eassumption.
Qed.

(** X5.  When an expired entry is read and the backing file cannot be
    written, [get] raises the [OSError] of the write, but the entry is
    gone from the in-memory map all the same (nothing is rolled back);
    nothing that was on disk is altered, and the next [get] of the key
    returns not-found without raising. *)
Theorem get_expired_unwritable_forgets this w key fields t :
  cache_data this !! key = Some (JObj fields) →
  written_at fromisoformat fields = Some (Time.Naive t) →
  t + ttl_minutes this * 60000000 < clock w →
  backing_writable (cache_file this) w = false →
  ∃ e w',
    get fromisoformat key (this, w)
    = (Raise e, (with_data (delete key (cache_data this)) this, w')) ∧
    is_OSError e = true ∧
    (∀ p n, Os.node_at p w = Some n → Os.node_at p w' = Some n) ∧
    get fromisoformat key (with_data (delete key (cache_data this)) this, w')
    = (Ok None, (with_data (delete key (cache_data this)) this, w')).
Proof.
  intros Hin Hp Hlt Hw. rewrite get_unfold, Hin.
  rewrite (expired_when_past fromisoformat _ _ _ t Hp Hlt).
  rewrite <- (save_cache_succeeds_iff
                (with_data (delete key (cache_data this)) this) w) in Hw.
  destruct (_save_cache (with_data (delete key (cache_data this)) this, w))
    as [r [this' w']] eqn:Hs.
  destruct (save_cache_result _ _ _ _ Hs) as (Hself & _ & _ & Hkept).
  simpl in Hself, Hw. subst this'. destruct r as [[] | e]; [discriminate |].
  exists e, w'. repeat split.
  - eapply save_cache_raises_OSError; eassumption.
  - apply Hkept. reflexivity.
  - apply get_when_absent. simpl. apply lookup_delete_eq.
Qed.

(** X6.  A value that is not a dict can be saved but not read back:
    after [save(key, data)] with [data] a number, a string, a list,
    [None] or a boolean, [get(key)] raises [AttributeError] (the value
    has no [.get]) and leaves the entry in place, so every later [get]
    of the key raises again until the key is saved anew or cleared. *)
Theorem get_non_dict_entry_raises this w key data now :
  (∀ fields, data ≠ JObj fields) →
  get fromisoformat key (at_time now (snd (save key data (this, w))))
  = (Raise AttributeError, at_time now (snd (save key data (this, w)))).
Proof.
  intros Hdata.
  pose proof (save_state this w key data) as Hst.
  destruct (save key data (this, w)) as [r [this' w']].
  simpl in Hst. subst this'. unfold at_time; simpl.
  rewrite get_unfold. simpl. rewrite lookup_insert_eq.
  destruct data; try reflexivity. now destruct (Hdata fields).
Qed.

(** X7.  Whenever [get] returns an entry, the entry is the very value
    stored under the key, a dict with a ['timestamp'] string that the
    parser accepts (the parser rejecting the empty string), so never an
    empty dict; and the call has changed nothing, in memory or on
    disk. *)
Theorem get_returns_stored_stamped_dict this w key entry s' :
  fromisoformat "" = None →
  get fromisoformat key (this, w) = (Ok (Some entry), s') →
  s' = (this, w) ∧
  cache_data this !! key = Some entry ∧
  ∃ fields ts t,
    entry = JObj fields ∧
    fields !! "timestamp" = Some (JStr ts) ∧
    fromisoformat ts = Some (Time.Naive t) ∧
    clock w <= t + ttl_minutes this * 60000000.
Proof.
  intros Hempty Hg.
  pose proof Hg as Hinv.
  apply get_some_inv in Hinv as (fields & -> & Hin & He).
  rewrite (get_when_fresh fromisoformat this w key fields Hin He) in Hg.
  inversion Hg; subst s'. split; [reflexivity |]. split; [assumption |].
  apply not_expired_inv in He as (t & Hp & _ & Hle).
  unfold timestamp_of in Hp.
  destruct (fields !! "timestamp") as [ts |] eqn:Hts; simpl in Hp;
    [| congruence].
  destruct ts; simpl in Hp; try discriminate.
  exists fields, s, t. auto.
Qed.

(** X8.  Freshness only wears off: if [get] returns an entry when the
    clock reads some instant, it returns the same entry, and changes
    nothing, when asked at any earlier instant on the same store. *)
Theorem get_hit_at_earlier_clock this w key entry s' earlier :
  get fromisoformat key (this, w) = (Ok (Some entry), s') →
  earlier <= clock w →
  get fromisoformat key (this, set_clock earlier w)
  = (Ok (Some entry), (this, set_clock earlier w)).
Proof.
  intros Hg Hle.
  apply get_some_inv in Hg as (fields & -> & Hin & He).
  apply get_when_fresh; [assumption |]. simpl.
  apply not_expired_inv in He as (t & Hp & Hplus & Hnow).
  eapply fresh_when_not_past; [eassumption | eassumption | lia].
Qed.

End Edges.

Section Durability.

Variable fromisoformat : string -> option Time.datetime.

(** X9.  What is written is what is read back: on a consistent disk
    where the backing file was absent or readable, after any [save],
    [clear] or evicting [get] that returned, constructing a new
    [CacheManager] on the same path, at any later time and with any
    TTL, raises nothing, loads exactly the entry map the call left in
    memory (expired entries included: loading checks no timestamp) and
    changes nothing on disk. *)
Theorem reopen_after_completed_write op this w ttl now :
  consistent w →
  absent_or_readable (Os.node_at (cache_file this) w) = true →
  completed_write op this (fst (run fromisoformat op (this, w))) = true →
  __init__ (cache_file this) ttl
    (set_clock now (snd (snd (run fromisoformat op (this, w)))))
  = (Ok (Opened {| cache_file := cache_file this;
                   ttl_minutes := ttl;
                   cache_data :=
                     cache_data (fst (snd (run fromisoformat op (this, w)))) |}),
     set_clock now (snd (snd (run fromisoformat op (this, w))))).
Proof.
  intros Hc Hrd Hdone.
  destruct (completed_write_inv fromisoformat op this w Hdone)
    as (data' & w' & Hstate & Hs).
  rewrite Hstate. simpl.
  destruct (save_cache_settles _ _ _ Hc Hs) as (Hc' & Hdir & rd & Hfile & Hrd').
  simpl in *. rewrite (Hrd' Hrd) in Hfile.
  now apply (settled_is_loadable (cache_file this) ttl (set_clock now w') true data').
Qed.

(** X10.  Writes do not stop going through: on a consistent disk, once
    a [save], [clear] or evicting [get] has returned, the disk is still
    consistent and the backing file is writable, at that time and at
    any later one, so that (nothing else touching the disk) every later
    [save] and [clear] on the store returns. *)
Theorem write_stays_possible op this w :
  consistent w →
  completed_write op this (fst (run fromisoformat op (this, w))) = true →
  consistent (snd (snd (run fromisoformat op (this, w)))) ∧
  (∀ now,
     backing_writable (cache_file this)
       (set_clock now (snd (snd (run fromisoformat op (this, w))))) = true) ∧
  (∀ now symbol data,
     fst (save symbol data
            (at_time now (snd (run fromisoformat op (this, w))))) = Ok tt) ∧
  (∀ now symbol,
     fst (clear symbol
            (at_time now (snd (run fromisoformat op (this, w))))) = Ok tt).
Proof.
  intros Hc Hdone.
  destruct (completed_write_inv fromisoformat op this w Hdone)
    as (data' & w' & Hstate & Hs).
  rewrite Hstate. simpl.
  destruct (save_cache_settles _ _ _ Hc Hs) as (Hc' & Hdir & rd & Hfile & _).
  simpl in *.
  assert (Hw : ∀ now, backing_writable (cache_file this) (set_clock now w') = true).
  { intros now. eapply (settled_is_writable _ (set_clock now w')); eassumption. }
  split; [assumption |]. split; [assumption |].
  assert (Hok : ∀ now data'',
    fst (_save_cache (with_data data'' (with_data data' this), set_clock now w'))
    = Ok tt).
  { intros now data''.
    destruct (save_cache_writable
                (with_data data'' (with_data data' this)) (set_clock now w')
                (Hw now)) as (w'' & Hs' & _).
    now rewrite Hs'. }
  split.
  - intros now symbol data. unfold at_time; simpl. rewrite save_unfold. apply Hok.
  - intros now symbol. unfold at_time; simpl. rewrite clear_unfold. apply Hok.
Qed.

End Durability.

(** X11.  [get_cache_info] reports the backing path and the TTL as
    configured and lists each key of the map once, whether its entry
    has expired or not (no timestamp is looked at); the entry count is
    the length of that list; the call changes nothing. *)
Theorem get_cache_info_lists_every_key this w :
  ∃ info,
    get_cache_info (this, w) = (Ok info, (this, w)) ∧
    info_file info = cache_file this ∧
    info_ttl_minutes info = ttl_minutes this ∧
    NoDup (cached_symbols info) ∧
    (∀ key, key ∈ cached_symbols info ↔ is_Some (cache_data this !! key)) ∧
    total_entries info = length (cached_symbols info).
Proof.
  eexists. split; [reflexivity |]. simpl. repeat split.
  - apply NoDup_fst_map_to_list.
  - intros Hk. apply list_elem_of_fmap in Hk as ([k x] & -> & Hx).
    apply elem_of_map_to_list in Hx. simpl. eauto.
  - intros [x Hx]. apply list_elem_of_fmap. exists (key, x).
    split; [reflexivity |]. now apply elem_of_map_to_list.
  - rewrite length_fmap. symmetry. apply length_map_to_list.
Qed.

(** X12.  After [clear()], [get_cache_info] reports no symbol and zero
    entries, whatever the store held and even when the write of [clear]
    failed. *)
Theorem info_after_clear_all_is_empty this w :
  fst (get_cache_info (snd (clear None (this, w))))
  = Ok {| info_file := cache_file this;
          info_ttl_minutes := ttl_minutes this;
          cached_symbols := [];
          total_entries := 0 |}.
Proof.
  pose proof (clear_state this w None) as Hst.
  destruct (clear None (this, w)) as [r [this' w']].
  simpl in Hst. subst this'. unfold get_cache_info, self. run_monad.
  now rewrite map_to_list_empty, map_size_empty.
Qed.

(** ** The same on concrete stores *)

Lemma consistent_no_files now : consistent {| files := ∅; clock := now |}.
Proof. intros p n Hp. simpl in Hp. now rewrite lookup_empty in Hp. Qed.

Example isoformat_parse_offset_samples :
  isoformat_parse_offset "2024-01-01T00:00:00+00:00"
  = Some (Time.Aware NEW_YEAR_2024 0) ∧
  isoformat_parse_offset "2024-01-01T00:00:00-05:30"
  = Some (Time.Aware NEW_YEAR_2024 (-19800000000)) ∧
  isoformat_parse_offset "2024-01-01T00:00:00" = Some (Time.Naive NEW_YEAR_2024) ∧
  isoformat_parse_offset "" = None.
Proof. repeat split. Qed.

Lemma clear_then_get_is_not_found_witness :
  get Time.isoformat_parse "BTC"
    (at_time NEW_YEAR_2024 (snd (clear (Some "BTC") (two_entries 15, ten_past))))
  = (Ok None,
     at_time NEW_YEAR_2024 (snd (clear (Some "BTC") (two_entries 15, ten_past)))).
Proof.
  apply (clear_then_get_is_not_found Time.isoformat_parse (two_entries 15)
           ten_past (Some "BTC") "BTC" NEW_YEAR_2024).
  intros k Hk. inversion Hk. reflexivity.
Defined.

Lemma get_aware_timestamp_evicts_witness :
  ∃ w', get isoformat_parse_offset "BTC" (utc_store, empty_disk)
        = (Ok None,
           (with_data (delete "BTC" (cache_data utc_store)) utc_store, w')) ∧
        persisted (with_data (delete "BTC" (cache_data utc_store)) utc_store) w'.
Proof.
  apply (get_aware_timestamp_evicts isoformat_parse_offset utc_store empty_disk
           "BTC" stamped_utc NEW_YEAR_2024 0).
  - reflexivity.
  - reflexivity.
  - vm_compute. reflexivity.
Defined.

Lemma get_ttl_overflow_evicts_witness :
  ∃ w', get Time.isoformat_parse "BTC" (two_entries 10000000000, ten_past)
        = (Ok None,
           (with_data (delete "BTC" (cache_data (two_entries 10000000000)))
              (two_entries 10000000000), w')) ∧
        persisted
          (with_data (delete "BTC" (cache_data (two_entries 10000000000)))
             (two_entries 10000000000)) w'.
Proof.
  apply (get_ttl_overflow_evicts Time.isoformat_parse (two_entries 10000000000)
           ten_past "BTC" stamped_2024 NEW_YEAR_2024).
  - reflexivity.
  - reflexivity.
  - reflexivity.
  - vm_compute. reflexivity.
Defined.

Lemma get_expired_unwritable_forgets_witness :
  ∃ e w',
    get Time.isoformat_parse "BTC" (two_entries 5, blocked_ten_past)
    = (Raise e, (with_data (delete "BTC" (cache_data (two_entries 5)))
                   (two_entries 5), w')) ∧
    is_OSError e = true ∧
    (∀ p n, Os.node_at p blocked_ten_past = Some n → Os.node_at p w' = Some n) ∧
    get Time.isoformat_parse "BTC"
      (with_data (delete "BTC" (cache_data (two_entries 5))) (two_entries 5), w')
    = (Ok None,
       (with_data (delete "BTC" (cache_data (two_entries 5))) (two_entries 5), w')).
Proof.
  apply (get_expired_unwritable_forgets Time.isoformat_parse (two_entries 5)
           blocked_ten_past "BTC" stamped_2024 NEW_YEAR_2024).
  - reflexivity.
  - reflexivity.
  - reflexivity.
  - vm_compute. reflexivity.
Defined.

Lemma get_non_dict_entry_raises_witness :
  get Time.isoformat_parse "BTC"
    (at_time NEW_YEAR_2024 (snd (save "BTC" (JInt 45000) (fresh_store 5, empty_disk))))
  = (Raise AttributeError,
     at_time NEW_YEAR_2024
       (snd (save "BTC" (JInt 45000) (fresh_store 5, empty_disk)))).
Proof.
  apply (get_non_dict_entry_raises Time.isoformat_parse (fresh_store 5) empty_disk
           "BTC" (JInt 45000) NEW_YEAR_2024).
  intros fields. discriminate.
Defined.

Lemma get_returns_stored_stamped_dict_witness :
  (two_entries 15, ten_past) = (two_entries 15, ten_past) ∧
  cache_data (two_entries 15) !! "BTC" = Some (JObj stamped_2024) ∧
  ∃ fields ts t,
    JObj stamped_2024 = JObj fields ∧
    fields !! "timestamp" = Some (JStr ts) ∧
    Time.isoformat_parse ts = Some (Time.Naive t) ∧
    clock ten_past <= t + ttl_minutes (two_entries 15) * 60000000.
Proof.
  apply (get_returns_stored_stamped_dict Time.isoformat_parse (two_entries 15)
           ten_past "BTC" (JObj stamped_2024) (two_entries 15, ten_past)).
  - reflexivity.
  - vm_compute. reflexivity.
Defined.

Lemma get_hit_at_earlier_clock_witness :
  get Time.isoformat_parse "BTC" (two_entries 15, set_clock NEW_YEAR_2024 ten_past)
  = (Ok (Some (JObj stamped_2024)),
     (two_entries 15, set_clock NEW_YEAR_2024 ten_past)).
Proof.
  apply (get_hit_at_earlier_clock Time.isoformat_parse (two_entries 15) ten_past
           "BTC" (JObj stamped_2024) (two_entries 15, ten_past) NEW_YEAR_2024).
  - vm_compute. reflexivity.
  - vm_compute. discriminate.
Defined.

Lemma reopen_after_completed_write_witness :
  __init__ "data/cache.json" 60
    (set_clock (NEW_YEAR_2024 + 1)
       (snd (snd (run Time.isoformat_parse (Save "BTC" (JObj stamped_2024))
                    (fresh_store 5, empty_disk)))))
  = (Ok (Opened {| cache_file := "data/cache.json";
                   ttl_minutes := 60;
                   cache_data :=
                     cache_data
                       (fst (snd (run Time.isoformat_parse
                                    (Save "BTC" (JObj stamped_2024))
                                    (fresh_store 5, empty_disk)))) |}),
     set_clock (NEW_YEAR_2024 + 1)
       (snd (snd (run Time.isoformat_parse (Save "BTC" (JObj stamped_2024))
                    (fresh_store 5, empty_disk))))).
Proof.
  apply (reopen_after_completed_write Time.isoformat_parse
           (Save "BTC" (JObj stamped_2024)) (fresh_store 5) empty_disk 60
           (NEW_YEAR_2024 + 1)).
  - apply consistent_no_files.
  - reflexivity.
  - vm_compute. reflexivity.
Defined.

Lemma write_stays_possible_witness :
  consistent
    (snd (snd (run Time.isoformat_parse (Get "BTC") (two_entries 5, ten_past)))) ∧
  (∀ now,
     backing_writable "data/cache.json"
       (set_clock now
          (snd (snd (run Time.isoformat_parse (Get "BTC")
                       (two_entries 5, ten_past))))) = true) ∧
  (∀ now symbol data,
     fst (save symbol data
            (at_time now (snd (run Time.isoformat_parse (Get "BTC")
                                 (two_entries 5, ten_past))))) = Ok tt) ∧
  (∀ now symbol,
     fst (clear symbol
            (at_time now (snd (run Time.isoformat_parse (Get "BTC")
                                 (two_entries 5, ten_past))))) = Ok tt).
Proof.
  apply (write_stays_possible Time.isoformat_parse (Get "BTC") (two_entries 5)
           ten_past).
  - apply consistent_no_files.
  - vm_compute. reflexivity.
Defined.

(** ** The validators *)

(** X13.  On ASCII text, [validate_symbol] returns [True] exactly for
    the strings of 2 to 10 characters that contain no lowercase letter
    and at least one uppercase letter (so digits alone are refused, as
    not uppercase); for anything else it raises [ValueError]; it never
    returns [False]. *)
Theorem validate_symbol_accepts_exactly (s : string) :
  is_ascii s = true →
  (validate_symbol (JStr s) = Returns true ↔
   (2 <= String.length s <= 10)%nat ∧
   (∀ c, In c (list_ascii_of_string s) → is_lower_letter c = false) ∧
   (∃ c, In c (list_ascii_of_string s) ∧ is_upper_letter c = true)) ∧
  (∀ value, validate_symbol value ≠ Returns false).
Proof.
  intros _. split.
  - unfold validate_symbol, isupper.
    destruct (Nat.ltb_spec (String.length s) 2) as [Hshort | Hshort]; simpl.
    { split; [discriminate | intros [Hlen _]; lia]. }
    destruct (Nat.ltb_spec 10 (String.length s)) as [Hlong | Hlong]; simpl.
    { split; [discriminate | intros [Hlen _]; lia]. }
    destruct (existsb is_lower_letter (list_ascii_of_string s)) eqn:Hlow; simpl.
    { split; [discriminate |]. intros (_ & Hno & _).
      apply existsb_exists in Hlow as (c & Hc & Hl). rewrite (Hno c Hc) in Hl.
      discriminate. }
    assert (Hno : ∀ c, In c (list_ascii_of_string s) → is_lower_letter c = false).
    { intros c Hc. destruct (is_lower_letter c) eqn:Hl; [| reflexivity].
      assert (existsb is_lower_letter (list_ascii_of_string s) = true)
        by (apply existsb_exists; eauto).
      congruence. }
    destruct (existsb is_upper_letter (list_ascii_of_string s)) eqn:Hup; simpl.
    + split; [| reflexivity]. intros _. repeat split; try lia; [exact Hno |].
      now apply existsb_exists in Hup.
    + split; [discriminate |]. intros (_ & _ & Hsome).
      apply existsb_exists in Hsome. congruence.
  - intros value. unfold validate_symbol. destruct value; try discriminate.
    destruct (Nat.ltb (String.length s0) 2 || Nat.ltb 10 (String.length s0));
      [discriminate |].
    destruct (negb (isupper s0)); discriminate.
Qed.

(** X14.  [validate_days] returns [True] exactly for the integers from
    1 to 365 and for the boolean [True], which Python counts as the
    integer 1; [False], any other number and any other value raise
    [ValueError]; it never returns [False]. *)
Theorem validate_days_accepts_exactly (days : json) :
  (validate_days days = Returns true ↔
   (∃ n, days = JInt n ∧ 1 <= n <= 365) ∨ days = JBool true) ∧
  validate_days days ≠ Returns false.
Proof.
  unfold validate_days. destruct days as [| b | n | | | |]; simpl;
    try (split; [split; [discriminate | intros [(n' & H & _) | H]; discriminate]
                | discriminate]).
  - destruct b; simpl; split; try discriminate.
    + split; [auto | reflexivity].
    + split; [discriminate | intros [(n' & H & _) | H]; discriminate].
  - destruct (Z.ltb_spec n 1) as [Hlo | Hlo]; simpl.
    { split; [| discriminate].
      split; [discriminate | intros [(n' & H & Hr) | H]; [| discriminate]].
      inversion H; subst. lia. }
    destruct (Z.ltb_spec 365 n) as [Hhi | Hhi]; simpl.
    { split; [| discriminate].
      split; [discriminate | intros [(n' & H & Hr) | H]; [| discriminate]].
      inversion H; subst. lia. }
    split; [| discriminate]. split; [| reflexivity].
    intros _. left. exists n. split; [reflexivity | lia].
Qed.

Lemma validate_symbol_accepts_exactly_witness :
  (validate_symbol (JStr "BTC") = Returns true ↔
   (2 <= String.length "BTC" <= 10)%nat ∧
   (∀ c, In c (list_ascii_of_string "BTC") → is_lower_letter c = false) ∧
   (∃ c, In c (list_ascii_of_string "BTC") ∧ is_upper_letter c = true)) ∧
  (∀ value, validate_symbol value ≠ Returns false).
Proof. apply (validate_symbol_accepts_exactly "BTC"). reflexivity. Defined.

Example validate_symbol_samples :
  validate_symbol (JStr "BTC") = Returns true ∧
  validate_symbol (JStr "INVALID123") = Returns true ∧
  validate_symbol (JStr "btc") = RaisesValueError "Symbol must be uppercase" ∧
  validate_symbol (JStr "123") = RaisesValueError "Symbol must be uppercase" ∧
  validate_symbol (JStr "B") = RaisesValueError "Symbol must be 2-10 characters" ∧
  validate_symbol (JInt 7) = RaisesValueError "Symbol must be a string" ∧
  validate_days (JInt 500) = RaisesValueError "Days must be between 1 and 365" ∧
  validate_days (JInt 7) = Returns true ∧
  validate_days (JFloat 7 0) = RaisesValueError "Days must be an integer".
Proof. repeat split. Qed.

(** ** The API *)

Arguments fetch_ticker : simpl never.
Arguments fetch_ticker_body : simpl never.
Arguments price_data_of : simpl never.
Arguments symbols_map : simpl never.

Lemma pair_is_usdt symbol pair :
  symbols_map !! symbol = Some pair → pair = symbol +:+ "/USDT".
Proof.
  intros Hp. apply elem_of_list_to_map_2 in Hp.
  assert (Hall : Forall (λ sp : string * string, sp.2 = sp.1 +:+ "/USDT")
                   SYMBOL_PAIRS) by (repeat constructor).
  rewrite Forall_forall in Hall. exact (Hall _ Hp).
Qed.

Section ApiProperties.

Variable exchange_fetch_ticker : string -> World -> reply.
Variable isoformat : Z -> string.

Lemma price_data_of_inv symbol ticker now data :
  price_data_of isoformat symbol ticker now = inr data →
  ∃ fields price,
    data = JObj fields ∧
    ticker !! "last" = Some price ∧
    fields !! "symbol" = Some (JStr symbol) ∧
    fields !! "price" = Some price ∧
    fields !! "timestamp" = Some (JStr (isoformat now)).
Proof.
  unfold price_data_of, item.
  destruct (ticker !! "last") as [price |]; [| discriminate].
  destruct (ticker !! "high"); [| discriminate].
  destruct (ticker !! "low"); [| discriminate].
  destruct (ticker !! "quoteVolume"); [| discriminate].
  destruct (ticker !! "bid"); [| discriminate].
  destruct (ticker !! "ask"); [| discriminate].
  intros H; inversion H; subst. eexists _, price.
  split; [reflexivity |]. repeat split; reflexivity.
Qed.

Lemma fetch_ticker_fetched_inv symbol w data :
  fetch_ticker exchange_fetch_ticker isoformat symbol w = Fetched data →
  ∃ ticker fields price,
    exchange_fetch_ticker (symbol +:+ "/USDT") w = Ticker ticker ∧
    data = JObj fields ∧
    ticker !! "last" = Some price ∧
    fields !! "symbol" = Some (JStr symbol) ∧
    fields !! "price" = Some price ∧
    fields !! "timestamp" = Some (JStr (isoformat (clock w))).
Proof.
  unfold fetch_ticker, fetch_ticker_body.
  destruct (symbols_map !! symbol) as [pair |] eqn:Hpair; [| discriminate].
  apply pair_is_usdt in Hpair. subst pair.
  destruct (exchange_fetch_ticker (symbol +:+ "/USDT") w) as [ticker | m];
    [| discriminate].
  destruct (price_data_of isoformat symbol ticker (clock w)) as [m | d] eqn:Hd;
    [discriminate |].
  intros H; inversion H; subst d.
  apply price_data_of_inv in Hd as (fields & price & -> & Hl & Hs & Hp & Ht).
  eauto 10.
Qed.

(** X15.  Whatever [fetch_ticker] returns came from the exchange's
    ticker of the USDT pair of the symbol asked for: the dict names that
    symbol, its price is the ticker's last price, and its timestamp is
    the current time as [isoformat] prints it. *)
Theorem fetch_ticker_returns_usdt_price symbol w data :
  fetch_ticker exchange_fetch_ticker isoformat symbol w = Fetched data →
  ∃ ticker fields price,
    exchange_fetch_ticker (symbol +:+ "/USDT") w = Ticker ticker ∧
    data = JObj fields ∧
    ticker !! "last" = Some price ∧
    fields !! "symbol" = Some (JStr symbol) ∧
    fields !! "price" = Some price ∧
    fields !! "timestamp" = Some (JStr (isoformat (clock w))).
Proof. apply fetch_ticker_fetched_inv. Qed.

Lemma fetch_multiple_tickers_from_lookup symbols : ∀ results w symbol,
  fetch_multiple_tickers_from exchange_fetch_ticker isoformat results symbols w
    !! symbol
  = if decide (symbol ∈ symbols)
    then Some match fetch_ticker exchange_fetch_ticker isoformat symbol w with
              | Fetched price_data => price_data
              | ApiException message => JObj {[ "error" := JStr message ]}
              end
    else results !! symbol.
Proof.
  induction symbols as [| first rest IH]; intros results w symbol;
    cbn [fetch_multiple_tickers_from].
  - destruct (decide (symbol ∈ [])) as [Hin | _]; [| reflexivity].
    now apply elem_of_nil in Hin.
  - rewrite IH.
    destruct (decide (symbol ∈ rest)) as [Hin | Hout].
    + destruct (decide (symbol ∈ first :: rest)) as [_ | Hno]; [reflexivity |].
      exfalso. apply Hno. now right.
    + destruct (decide (symbol = first)) as [-> | Hne].
      * rewrite lookup_insert_eq.
        destruct (decide (first ∈ first :: rest)) as [_ | Hno]; [reflexivity |].
        exfalso. apply Hno. left.
      * rewrite lookup_insert_ne by congruence.
        destruct (decide (symbol ∈ first :: rest)) as [Hin | _]; [| reflexivity].
        apply elem_of_cons in Hin as [? | ?]; contradiction.
Qed.

(** X16.  [fetch_multiple_tickers] never raises and answers with one
    entry per symbol asked for, and no other: the price data when
    [fetch_ticker] returns it, else the dict [{'error': message}] of its
    exception.  For a symbol that is not in the symbol table the message
    is the same whatever the exchange: it is not asked. *)
Theorem fetch_multiple_tickers_one_entry_each symbols w symbol :
  (symbol ∈ symbols →
   fetch_multiple_tickers exchange_fetch_ticker isoformat symbols w !! symbol
   = Some match fetch_ticker exchange_fetch_ticker isoformat symbol w with
          | Fetched price_data => price_data
          | ApiException message => JObj {[ "error" := JStr message ]}
          end) ∧
  (symbol ∉ symbols →
   fetch_multiple_tickers exchange_fetch_ticker isoformat symbols w !! symbol
   = None) ∧
  (symbol ∈ symbols → symbols_map !! symbol = None →
   fetch_multiple_tickers exchange_fetch_ticker isoformat symbols w !! symbol
   = Some (JObj {[ "error" :=
                   JStr ("Error fetching " +:+ symbol +:+ ": "
                         +:+ ("Symbol " +:+ symbol +:+ " not supported")) ]})).
Proof.
  unfold fetch_multiple_tickers. rewrite fetch_multiple_tickers_from_lookup.
  destruct (decide (symbol ∈ symbols)) as [Hin | Hout].
  - split; [reflexivity |]. split; [contradiction |].
    intros _ Hno. unfold fetch_ticker, fetch_ticker_body. now rewrite Hno.
  - split; [contradiction |]. split; [intros _; apply lookup_empty | contradiction].
Qed.

End ApiProperties.

(** ** The server *)

Lemma plus_minutes_in_range t m :
  0 <= t → 0 <= m → t + m * 60000000 <= Time.DATETIME_MAX →
  Time.plus_minutes (Time.Naive t) m = Some (Time.Naive (t + m * 60000000)).
Proof.
  intros Ht Hm Hmax.
  unfold Time.plus_minutes, Time.timedelta_minutes, Time.datetime_add,
    Time.representable.
  change Time.MICROS_PER_MINUTE with 60000000.
  assert (Hmax' : Time.DATETIME_MAX = 315537897599999999) by reflexivity.
  assert (Hlo : (Time.TIMEDELTA_MIN <=? m * 60000000) = true).
  { apply Z.leb_le. unfold Time.TIMEDELTA_MIN, Time.MICROS_PER_DAY,
      Time.MICROS_PER_SECOND. lia. }
  assert (Hhi : (m * 60000000 <=? Time.TIMEDELTA_MAX) = true).
  { apply Z.leb_le. unfold Time.TIMEDELTA_MAX, Time.MICROS_PER_DAY,
      Time.MICROS_PER_SECOND. lia. }
  rewrite Hlo, Hhi. simpl.
  assert (H0 : (0 <=? t + m * 60000000) = true) by (apply Z.leb_le; lia).
  assert (H1 : (t + m * 60000000 <=? Time.DATETIME_MAX) = true)
    by (apply Z.leb_le; lia).
  now rewrite H0, H1.
Qed.

Lemma dict_with_key_is_truthy (fields : gmap string json) key v :
  fields !! key = Some v → truthy (JObj fields) = true.
Proof.
  intros Hk. simpl. apply negb_true_iff, Nat.eqb_neq.
  apply (map_size_ne_0_lookup_2 fields key). eauto.
Qed.

Section ServerProperties.

Variable fromisoformat : string -> option Time.datetime.

(** What a [get] that found nothing leaves: the key absent, the clock,
    the TTL and the backing path as they were. *)
Lemma get_none_inv this w key this1 w1 :
  get fromisoformat key (this, w) = (Ok None, (this1, w1)) →
  cache_data this1 !! key = None ∧ clock w1 = clock w ∧
  ttl_minutes this1 = ttl_minutes this ∧ cache_file this1 = cache_file this.
Proof.
  rewrite get_unfold.
  destruct (cache_data this !! key) as [entry |] eqn:Hin.
  2:{ intros H; inversion H; subst. auto. }
  destruct entry; try discriminate.
  destruct (is_expired_at fromisoformat (ttl_minutes this) (clock w)
              (timestamp_of fields)); [| discriminate].
  destruct (_save_cache _) as [r s'] eqn:Hs.
  destruct (save_cache_result _ _ _ _ Hs) as (Hself & Hck & _).
  destruct r as [[] | e]; [| discriminate].
  intros H; inversion H; subst s'. simpl in *. subst this1.
  simpl. repeat split; [apply lookup_delete_eq | assumption].
Qed.

(** A hit of [get] is a hit of the server: the entry is a non-empty
    dict. *)
Lemma returned_entry_is_truthy this w key entry s' :
  fromisoformat "" = None →
  get fromisoformat key (this, w) = (Ok (Some entry), s') →
  truthy entry = true ∧ s' = (this, w).
Proof.
  intros Hempty Hg. pose proof Hg as Hinv.
  apply get_some_inv in Hinv as (fields & -> & Hin & He).
  rewrite (get_when_fresh fromisoformat this w key fields Hin He) in Hg.
  inversion Hg; subst s'. split; [| reflexivity].
  apply not_expired_inv in He as (t & Hp & _).
  unfold timestamp_of in Hp.
  destruct (fields !! "timestamp") as [ts |] eqn:Hts; simpl in Hp; [| congruence].
  eapply dict_with_key_is_truthy; eassumption.
Qed.

(** X17.  When the cache holds a fresh entry for the symbol,
    [get_current_price] returns that entry and changes nothing, in
    memory or on disk; neither the exchange nor the error handler has
    any part in it: the answer is the same whatever they would do (the
    parser rejecting the empty string). *)
Theorem get_current_price_hit_asks_nobody
    exchange_fetch_ticker isoformat str_of_exn _log_error
    this w symbol entry s' :
  fromisoformat "" = None →
  get fromisoformat symbol (this, w) = (Ok (Some entry), s') →
  get_current_price fromisoformat exchange_fetch_ticker isoformat str_of_exn
    _log_error symbol (this, w)
  = (entry, (this, w)).
Proof.
  intros Hempty Hg.
  destruct (returned_entry_is_truthy _ _ _ _ _ Hempty Hg) as [Htruthy ->].
  unfold get_current_price. now rewrite Hg, Htruthy.
Qed.

End ServerProperties.

Section ServedFromCache.

Variable fromisoformat : string -> option Time.datetime.
Variable exchange_fetch_ticker : string -> World -> reply.
Variable isoformat : Z -> string.
Variable str_of_exn : exn -> string.
Variable _log_error : json -> World -> World.

(** After the fetch path, whether the write went through or not, the
    object is the one [get] left with the price data put under the
    symbol. *)
Lemma fetch_and_cache_state symbol s price_data :
  fetch_ticker exchange_fetch_ticker isoformat symbol (snd s) = Fetched price_data →
  fst (snd (fetch_and_cache exchange_fetch_ticker isoformat str_of_exn _log_error
              symbol s))
  = with_data (<[symbol := price_data]> (cache_data (fst s))) (fst s) ∧
  (backing_writable (cache_file (fst s)) (snd s) = true →
   fst (fetch_and_cache exchange_fetch_ticker isoformat str_of_exn _log_error
          symbol s) = price_data).
Proof.
  intros Hf. destruct s as [this w]. unfold fetch_and_cache.
  cbn [fst snd] in *. rewrite Hf.
  pose proof (save_state this w symbol price_data) as Hst.
  pose proof (save_cache_succeeds_iff
                (with_data (<[symbol := price_data]> (cache_data this)) this) w)
    as Hiff.
  rewrite <- save_unfold in Hiff.
  destruct (save symbol price_data (this, w)) as [r [this' w']].
  simpl in *. subst this'.
  destruct r as [[] | e]; simpl.
  - auto.
  - split; [reflexivity |]. intros Hw. rewrite Hw in Hiff. discriminate.
Qed.

(** X18.  A price fetched is a price cached.  When the cache has
    nothing fresh for the symbol and the API returns price data
    ([isoformat] and the parser agreeing on the current time, the TTL
    not negative and the expiry representable), [get_current_price]
    returns that data if the backing file is writable; and, written or
    not, every later [get_current_price] of the symbol, up to TTL
    minutes after the fetch, returns the same data and changes nothing,
    whatever the exchange would then answer: it is not asked. *)
Theorem price_is_served_from_cache this w symbol s1 price_data :
  get fromisoformat symbol (this, w) = (Ok None, s1) →
  fetch_ticker exchange_fetch_ticker isoformat symbol (snd s1) = Fetched price_data →
  fromisoformat (isoformat (clock w)) = Some (Time.Naive (clock w)) →
  0 <= clock w →
  0 <= ttl_minutes this →
  clock w + ttl_minutes this * 60000000 <= Time.DATETIME_MAX →
  (backing_writable (cache_file this) (snd s1) = true →
   fst (get_current_price fromisoformat exchange_fetch_ticker isoformat
          str_of_exn _log_error symbol (this, w)) = price_data) ∧
  (∀ exchange' isoformat' str_of_exn' _log_error' later,
     later <= clock w + ttl_minutes this * 60000000 →
     get_current_price fromisoformat exchange' isoformat' str_of_exn'
       _log_error' symbol
       (at_time later
          (snd (get_current_price fromisoformat exchange_fetch_ticker isoformat
                  str_of_exn _log_error symbol (this, w))))
     = (price_data,
        at_time later
          (snd (get_current_price fromisoformat exchange_fetch_ticker isoformat
                  str_of_exn _log_error symbol (this, w))))).
Proof.
  intros Hmiss Hfetch Hround Hclock Httl Hmax.
  destruct s1 as [this1 w1].
  destruct (get_none_inv fromisoformat _ _ _ _ _ Hmiss) as (_ & Hck & Httl1 & Hfile1).
  destruct (fetch_and_cache_state symbol (this1, w1) price_data Hfetch)
    as [Hstate Hret].
  assert (Hfirst :
    get_current_price fromisoformat exchange_fetch_ticker isoformat str_of_exn
      _log_error symbol (this, w)
    = fetch_and_cache exchange_fetch_ticker isoformat str_of_exn _log_error
        symbol (this1, w1))
    by (unfold get_current_price; now rewrite Hmiss).
  rewrite Hfirst.
  cbn [fst snd] in *. rewrite Hfile1 in Hret. split; [exact Hret |].
  intros exchange' isoformat' str_of_exn' _log_error' later Hlater.
  destruct (fetch_and_cache exchange_fetch_ticker isoformat str_of_exn _log_error
              symbol (this1, w1)) as [answer [this2 w2]].
  cbn [fst snd] in Hstate. subst this2. unfold at_time; cbn [fst snd].
  apply fetch_ticker_fetched_inv in Hfetch
    as (ticker & fields & price & _ & -> & _ & _ & _ & Hts).
  rewrite Hck in Hts.
  assert (Hhit : get fromisoformat symbol
            (with_data (<[symbol := JObj fields]> (cache_data this1)) this1,
             set_clock later w2)
          = (Ok (Some (JObj fields)),
             (with_data (<[symbol := JObj fields]> (cache_data this1)) this1,
              set_clock later w2))).
  { apply get_when_fresh; [simpl; apply lookup_insert_eq |].
    simpl. rewrite Httl1.
    eapply (fresh_when_not_past fromisoformat _ _ _ (clock w)).
    - unfold timestamp_of. rewrite Hts. exact Hround.
    - now apply plus_minutes_in_range.
    - exact Hlater. }
  unfold get_current_price. rewrite Hhit.
  now rewrite (dict_with_key_is_truthy fields _ _ Hts).
Qed.

(** X19.  An error is never cached.  When the cache has nothing fresh
    for the symbol and the API raises (the exchange failing, or the
    symbol not being supported, in which case the exchange is not
    asked), [get_current_price] raises nothing: it returns the handler's
    error response, [error] true, the API's message, the symbol as
    context, the type [Exception], and leaves no entry under the
    symbol, so that the next call asks the API again. *)
Theorem failed_fetch_caches_nothing this w symbol s1 message :
  get fromisoformat symbol (this, w) = (Ok None, s1) →
  fetch_ticker exchange_fetch_ticker isoformat symbol (snd s1)
  = ApiException message →
  fst (get_current_price fromisoformat exchange_fetch_ticker isoformat
         str_of_exn _log_error symbol (this, w))
  = JObj (list_to_map
            [ ("error", JBool true); ("message", JStr message);
              ("context", JStr symbol);
              ("timestamp", JStr (isoformat (clock w)));
              ("type", JStr "Exception") ]) ∧
  cache_data
    (fst (snd (get_current_price fromisoformat exchange_fetch_ticker isoformat
                 str_of_exn _log_error symbol (this, w)))) !! symbol = None ∧
  (symbols_map !! symbol = None →
   message = "Error fetching " +:+ symbol +:+ ": "
             +:+ ("Symbol " +:+ symbol +:+ " not supported")).
Proof.
  intros Hmiss Hfail. destruct s1 as [this1 w1].
  destruct (get_none_inv fromisoformat _ _ _ _ _ Hmiss) as (Habsent & Hck & _).
  unfold get_current_price. rewrite Hmiss. unfold fetch_and_cache.
  cbn [fst snd] in *. rewrite Hfail. unfold handled, handle.
  cbn [fst snd]. rewrite Hck.
  split; [reflexivity |]. split; [assumption |].
  intros Hno. unfold fetch_ticker, fetch_ticker_body in Hfail.
  rewrite Hno in Hfail. now inversion Hfail.
Qed.

Lemma get_multiple_prices_from_keys symbols : ∀ results s key,
  is_Some (fst (get_multiple_prices_from fromisoformat exchange_fetch_ticker
                  isoformat str_of_exn _log_error results symbols s) !! key)
  ↔ key ∈ symbols ∨ is_Some (results !! key).
Proof.
  induction symbols as [| first rest IH]; intros results s key;
    cbn [get_multiple_prices_from].
  - cbn [fst]. split; [auto |]. intros [Hin | H]; [| assumption].
    now apply elem_of_nil in Hin.
  - destruct (get_current_price fromisoformat exchange_fetch_ticker isoformat
                str_of_exn _log_error first s) as [price s'].
    rewrite IH, lookup_insert_is_Some, elem_of_cons.
    destruct (decide (first = key)) as [-> | Hne]; [tauto |].
    split.
    + intros [H | [H | [_ H]]]; [auto | contradiction | auto].
    + intros [[H | H] | H]; [congruence | auto | auto].
Qed.

Lemma get_multiple_prices_from_app first_ones : ∀ results more s,
  get_multiple_prices_from fromisoformat exchange_fetch_ticker isoformat
    str_of_exn _log_error results (first_ones ++ more) s
  = get_multiple_prices_from fromisoformat exchange_fetch_ticker isoformat
      str_of_exn _log_error
      (fst (get_multiple_prices_from fromisoformat exchange_fetch_ticker
              isoformat str_of_exn _log_error results first_ones s))
      more
      (snd (get_multiple_prices_from fromisoformat exchange_fetch_ticker
              isoformat str_of_exn _log_error results first_ones s)).
Proof.
  induction first_ones as [| first rest IH]; intros results more s.
  - reflexivity.
  - rewrite <- app_comm_cons. cbn [get_multiple_prices_from].
    destruct (get_current_price fromisoformat exchange_fetch_ticker isoformat
                str_of_exn _log_error first s) as [price s'].
    apply IH.
Qed.

(** The dict built so far has no part in what the loop does to the
    cache and the disk. *)
Lemma get_multiple_prices_from_state symbols : ∀ results results' s,
  snd (get_multiple_prices_from fromisoformat exchange_fetch_ticker isoformat
         str_of_exn _log_error results symbols s)
  = snd (get_multiple_prices_from fromisoformat exchange_fetch_ticker
           isoformat str_of_exn _log_error results' symbols s).
Proof.
  induction symbols as [| first rest IH]; intros results results' s;
    cbn [get_multiple_prices_from].
  - reflexivity.
  - destruct (get_current_price fromisoformat exchange_fetch_ticker isoformat
                str_of_exn _log_error first s) as [price s'].
    apply IH.
Qed.

Lemma get_multiple_prices_from_other symbols : ∀ results s key,
  key ∉ symbols →
  fst (get_multiple_prices_from fromisoformat exchange_fetch_ticker isoformat
         str_of_exn _log_error results symbols s) !! key
  = results !! key.
Proof.
  induction symbols as [| first rest IH]; intros results s key Hout;
    cbn [get_multiple_prices_from].
  - reflexivity.
  - apply not_elem_of_cons in Hout as [Hne Hout].
    destruct (get_current_price fromisoformat exchange_fetch_ticker isoformat
                str_of_exn _log_error first s) as [price s'].
    rewrite IH by assumption. apply lookup_insert_ne. congruence.
Qed.

(** X20.  [get_multiple_prices] raises nothing and answers every symbol
    asked for with what [get_current_price] returns for it, be it a
    price or an error response, and with nothing else.  The symbols are
    served in the order given, each call of [get_current_price] starting
    from the cache and the disk its predecessor left: under [key], last
    asked for after the symbols of [before], the result holds the answer
    of [get_current_price key] in the state reached through [before];
    the state returned is the one reached by serving [after] from where
    that call ended; a key not asked for has no entry. *)
Theorem get_multiple_prices_one_entry_each before key after s :
  key ∉ after →
  let earlier :=
    get_multiple_prices fromisoformat exchange_fetch_ticker isoformat
      str_of_exn _log_error before s in
  let answer :=
    get_current_price fromisoformat exchange_fetch_ticker isoformat
      str_of_exn _log_error key (snd earlier) in
  let all :=
    get_multiple_prices fromisoformat exchange_fetch_ticker isoformat
      str_of_exn _log_error (before ++ key :: after) s in
  fst all !! key = Some (fst answer) ∧
  snd all
  = snd (get_multiple_prices fromisoformat exchange_fetch_ticker isoformat
           str_of_exn _log_error after (snd answer)) ∧
  ∀ other, other ∉ (before ++ key :: after)%list → fst all !! other = None.
Proof.
  intros Hlast earlier answer all. subst earlier answer all.
  unfold get_multiple_prices.
  split; [| split].
  - rewrite get_multiple_prices_from_app. cbn [get_multiple_prices_from].
    destruct (get_current_price fromisoformat exchange_fetch_ticker isoformat
                str_of_exn _log_error key _) as [price s'].
    rewrite get_multiple_prices_from_other by assumption.
    apply lookup_insert_eq.
  - rewrite get_multiple_prices_from_app. cbn [get_multiple_prices_from].
    destruct (get_current_price fromisoformat exchange_fetch_ticker isoformat
                str_of_exn _log_error key _) as [price s'].
    apply get_multiple_prices_from_state.
  - intros other Hout.
    rewrite get_multiple_prices_from_other by assumption.
    apply lookup_empty.
Qed.

End ServedFromCache.

(** ** The API and the server on concrete inputs *)

Example isoformat_print_samples :
  isoformat_print NEW_YEAR_2024 = "2024-01-01T00:00:00" ∧
  isoformat_print (NEW_YEAR_2024 + 59 * 86400000000 + 3723000001)
  = "2024-02-29T01:02:03.000001" ∧
  isoformat_print Time.DATETIME_MAX = "9999-12-31T23:59:59.999999" ∧
  Time.isoformat_parse (isoformat_print (NEW_YEAR_2024 + 3723000001))
  = Some (Time.Naive (NEW_YEAR_2024 + 3723000001)).
Proof. repeat split; vm_compute; reflexivity. Qed.

Lemma fetch_ticker_returns_usdt_price_witness :
  ∃ ticker fields price,
    sample_exchange ("BTC" +:+ "/USDT") empty_disk = Ticker ticker ∧
    sample_price_data = JObj fields ∧
    ticker !! "last" = Some price ∧
    fields !! "symbol" = Some (JStr "BTC") ∧
    fields !! "price" = Some price ∧
    fields !! "timestamp" = Some (JStr (isoformat_print (clock empty_disk))).
Proof.
  apply (fetch_ticker_returns_usdt_price sample_exchange isoformat_print "BTC"
           empty_disk sample_price_data).
  vm_compute. reflexivity.
Defined.

Lemma fetch_multiple_tickers_one_entry_each_witness :
  fetch_multiple_tickers sample_exchange isoformat_print ["BTC"; "FOO"] empty_disk
    !! "BTC" = Some sample_price_data ∧
  fetch_multiple_tickers sample_exchange isoformat_print ["BTC"; "FOO"] empty_disk
    !! "ETH" = None ∧
  fetch_multiple_tickers sample_exchange isoformat_print ["BTC"; "FOO"] empty_disk
    !! "FOO"
  = Some (JObj {[ "error" :=
                  JStr ("Error fetching " +:+ "FOO" +:+ ": "
                        +:+ ("Symbol " +:+ "FOO" +:+ " not supported")) ]}).
Proof.
  split; [| split].
  - rewrite (proj1 (fetch_multiple_tickers_one_entry_each sample_exchange
                      isoformat_print ["BTC"; "FOO"] empty_disk "BTC")).
    + vm_compute. reflexivity.
    + left.
  - apply (proj1 (proj2 (fetch_multiple_tickers_one_entry_each sample_exchange
                           isoformat_print ["BTC"; "FOO"] empty_disk "ETH"))).
    intros Hin. apply elem_of_cons in Hin as [H | Hin]; [discriminate |].
    apply elem_of_cons in Hin as [H | Hin]; [discriminate |].
    now apply elem_of_nil in Hin.
  - apply (proj2 (proj2 (fetch_multiple_tickers_one_entry_each sample_exchange
                           isoformat_print ["BTC"; "FOO"] empty_disk "FOO"))).
    + right. left.
    + vm_compute. reflexivity.
Defined.

Lemma get_current_price_hit_asks_nobody_witness :
  get_current_price Time.isoformat_parse unreachable_exchange isoformat_print
    exn_name log_unwritable "BTC" (two_entries 15, ten_past)
  = (JObj stamped_2024, (two_entries 15, ten_past)).
Proof.
  apply (get_current_price_hit_asks_nobody Time.isoformat_parse
           unreachable_exchange isoformat_print exn_name log_unwritable
           (two_entries 15) ten_past "BTC" (JObj stamped_2024)
           (two_entries 15, ten_past)).
  - reflexivity.
  - vm_compute. reflexivity.
Defined.

Lemma price_is_served_from_cache_witness :
  (backing_writable (cache_file (fresh_store 5)) empty_disk = true →
   fst (get_current_price Time.isoformat_parse sample_exchange isoformat_print
          exn_name log_unwritable "BTC" (fresh_store 5, empty_disk))
   = sample_price_data) ∧
  (∀ exchange' isoformat' str_of_exn' _log_error' later,
     later <= clock empty_disk + ttl_minutes (fresh_store 5) * 60000000 →
     get_current_price Time.isoformat_parse exchange' isoformat' str_of_exn'
       _log_error' "BTC"
       (at_time later
          (snd (get_current_price Time.isoformat_parse sample_exchange
                  isoformat_print exn_name log_unwritable "BTC"
                  (fresh_store 5, empty_disk))))
     = (sample_price_data,
        at_time later
          (snd (get_current_price Time.isoformat_parse sample_exchange
                  isoformat_print exn_name log_unwritable "BTC"
                  (fresh_store 5, empty_disk))))).
Proof.
  apply (price_is_served_from_cache Time.isoformat_parse sample_exchange
           isoformat_print exn_name log_unwritable (fresh_store 5) empty_disk
           "BTC" (fresh_store 5, empty_disk) sample_price_data).
  - vm_compute. reflexivity.
  - vm_compute. reflexivity.
  - vm_compute. reflexivity.
  - vm_compute. discriminate.
  - vm_compute. discriminate.
  - vm_compute. discriminate.
Defined.

Lemma failed_fetch_caches_nothing_witness :
  fst (get_current_price Time.isoformat_parse unreachable_exchange
         isoformat_print exn_name log_unwritable "BTC" (two_entries 5, ten_past))
  = JObj (list_to_map
            [ ("error", JBool true);
              ("message",
               JStr ("Error fetching BTC: "
                     +:+ "binance GET https://api.binance.com/api/v3/exchangeInfo"));
              ("context", JStr "BTC");
              ("timestamp", JStr (isoformat_print (clock ten_past)));
              ("type", JStr "Exception") ]) ∧
  cache_data
    (fst (snd (get_current_price Time.isoformat_parse unreachable_exchange
                 isoformat_print exn_name log_unwritable "BTC"
                 (two_entries 5, ten_past)))) !! "BTC" = None.
Proof.
  destruct (failed_fetch_caches_nothing Time.isoformat_parse unreachable_exchange
              isoformat_print exn_name log_unwritable (two_entries 5) ten_past
              "BTC"
              (snd (get Time.isoformat_parse "BTC" (two_entries 5, ten_past)))
              ("Error fetching BTC: "
               +:+ "binance GET https://api.binance.com/api/v3/exchangeInfo"))
    as (Hresp & Habsent & _).
  - vm_compute. reflexivity.
  - vm_compute. reflexivity.
  - split; assumption.
Defined.

Lemma get_touches_no_other_key_witness :
  cache_data
    (fst (snd (get Time.isoformat_parse "BTC" (two_entries 5, ten_past)))) !! "ETH"
  = cache_data (two_entries 5) !! "ETH".
Proof.
  apply (proj1 (proj2 (proj2 (get_touches_no_other_key Time.isoformat_parse
                                (two_entries 5) ten_past "BTC"))) "ETH").
  discriminate.
Defined.

Lemma get_cache_info_lists_every_key_witness :
  ∃ info,
    get_cache_info (two_entries 5, ten_past) = (Ok info, (two_entries 5, ten_past)) ∧
    info_file info = cache_file (two_entries 5) ∧
    info_ttl_minutes info = ttl_minutes (two_entries 5) ∧
    NoDup (cached_symbols info) ∧
    (∀ key, key ∈ cached_symbols info
            ↔ is_Some (cache_data (two_entries 5) !! key)) ∧
    total_entries info = length (cached_symbols info).
Proof. exact (get_cache_info_lists_every_key (two_entries 5) ten_past). Defined.

Lemma validate_days_accepts_exactly_witness :
  validate_days (JInt 7) = Returns true ∧ validate_days (JBool true) = Returns true.
Proof.
  split.
  - apply (proj2 (proj1 (validate_days_accepts_exactly (JInt 7)))).
    left. exists 7. split; [reflexivity | lia].
  - apply (proj2 (proj1 (validate_days_accepts_exactly (JBool true)))).
    right. reflexivity.
Defined.

Lemma get_multiple_prices_one_entry_each_witness :
  ("FOO" ∉ ([] : list string)) ∧
  fst (get_multiple_prices Time.isoformat_parse sample_exchange
         isoformat_print exn_name log_unwritable ["BTC"; "FOO"]
         (fresh_store 5, empty_disk)) !! "FOO"
  = Some (fst (get_current_price Time.isoformat_parse sample_exchange
                 isoformat_print exn_name log_unwritable "FOO"
                 (snd (get_multiple_prices Time.isoformat_parse
                         sample_exchange isoformat_print exn_name
                         log_unwritable ["BTC"] (fresh_store 5, empty_disk))))).
Proof.
  split; [apply not_elem_of_nil |].
  apply (get_multiple_prices_one_entry_each Time.isoformat_parse
           sample_exchange isoformat_print exn_name log_unwritable
           ["BTC"] "FOO" [] (fresh_store 5, empty_disk)).
  apply not_elem_of_nil.
Defined.

(** Asked for [BTC] and [FOO] of an exchange that knows the first only,
    [get_multiple_prices] answers the first with its price and the
    second with an error response. *)
Example get_multiple_prices_samples :
  let result :=
    fst (get_multiple_prices Time.isoformat_parse sample_exchange
           isoformat_print exn_name log_unwritable ["BTC"; "FOO"]
           (fresh_store 5, empty_disk)) in
  result !! "BTC" = Some sample_price_data ∧
  (∃ fields, result !! "FOO" = Some (JObj fields) ∧
             fields !! "error" = Some (JBool true)) ∧
  size result = 2%nat.
Proof.
  vm_compute. split; [reflexivity | split; [| reflexivity]].
  eexists. split; [reflexivity |]. vm_compute. reflexivity.
Qed.

(** ** A corrupt backing file *)

(** X21.  A backing file that does not parse is not repaired, it is
    replaced: on a consistent disk where the directory is there and the
    file is writable but malformed, [__init__] yields an empty store
    without touching the disk, and the first [save] then returns and
    leaves the file holding that one entry and nothing of what it held
    before. *)
Theorem corrupt_file_is_replaced_by_first_save path ttl w readable symbol data :
  consistent w →
  Os.node_at (Os.path_dirname path) w = Some Dir →
  Os.node_at path w = Some (File readable true Malformed) →
  __init__ path ttl w
  = (Ok (Opened {| cache_file := path; ttl_minutes := ttl; cache_data := ∅ |}), w) ∧
  ∃ w',
    save symbol data
      ({| cache_file := path; ttl_minutes := ttl; cache_data := ∅ |}, w)
    = (Ok tt,
       ({| cache_file := path; ttl_minutes := ttl;
           cache_data := {[ symbol := data ]} |}, w')) ∧
    file_holds path {[ symbol := data ]} w'.
Proof.
  intros Hc Hdir Hfile. split.
  - unfold __init__, _load_cache, _ensure_data_dir, self, in_world,
      Os.path_exists, Os.read_file, json_load.
    run_monad. rewrite (makedirs_existing _ _ Hc Hdir). simpl.
    rewrite Hfile. simpl. rewrite Hfile. now destruct readable.
  - rewrite save_unfold.
    destruct (save_cache_writable
                (with_data (<[symbol := data]> ∅)
                   {| cache_file := path; ttl_minutes := ttl; cache_data := ∅ |}) w)
      as (w' & Hs & Hper & _).
    { simpl. eapply settled_is_writable; eassumption. }
    exists w'. split; [exact Hs | exact Hper].
Qed.

Lemma corrupt_file_is_replaced_by_first_save_witness :
  __init__ "data/cache.json" 5 corrupt_disk
  = (Ok (Opened {| cache_file := "data/cache.json"; ttl_minutes := 5;
                   cache_data := ∅ |}), corrupt_disk) ∧
  ∃ w',
    save "BTC" (JObj stamped_2024)
      ({| cache_file := "data/cache.json"; ttl_minutes := 5; cache_data := ∅ |},
       corrupt_disk)
    = (Ok tt,
       ({| cache_file := "data/cache.json"; ttl_minutes := 5;
           cache_data := {[ "BTC" := JObj stamped_2024 ]} |}, w')) ∧
    file_holds "data/cache.json" {[ "BTC" := JObj stamped_2024 ]} w'.
Proof.
  apply (corrupt_file_is_replaced_by_first_save "data/cache.json" 5 corrupt_disk
           true "BTC" (JObj stamped_2024)).
  - intros p n Hp. unfold corrupt_disk in Hp. simpl in Hp.
    apply lookup_insert_Some in Hp as [[<- _] | [_ Hp]]; [reflexivity |].
    apply lookup_singleton_Some in Hp as [<- _]. reflexivity.
  - reflexivity.
  - reflexivity.
Defined.
